(** * ConfigService of the TUXEDO Control Center front end

    A shallow embedding of [src/ng-app/app/config.service.ts]: the service
    object that mirrors the daemon's settings and profile lists, holds the
    profile under edit, and hands changes to the daemon through [pkexec].

    JavaScript objects are shared by reference, so profiles, profile arrays
    and settings objects live in a store and the service holds references
    into it.  Every method is a state transformer over that store, the
    service's own fields and a log of the calls made to collaborators.

    A method that returns a promise is run to its resolution: the model
    has one thread of control and interleaves nothing with the helper's
    run.  What the helper and the daemon do in that time is the
    collaborator's answer, an arbitrary function of the world. *)

From stdpp Require Import base numbers gmap strings list.

Local Open Scope Z_scope.

(** ** Data *)

(** Object references. *)
Abbreviation loc := positive.

Local Set Warnings "-register-all".

(** A value as [JSON.parse] delivers it.  Numbers are kept to the integers. *)
Inductive JSON : Type :=
  | JNull
  | JBool (b : bool)
  | JNum (n : Z)
  | JStr (s : string)
  | JArr (items : list JSON)
  | JObj (members : list (string * JSON)).

Global Instance JSON_eq_dec : EqDecision JSON.
Proof.
  refine (fix go (x y : JSON) {struct x} : Decision (x = y) :=
    let _ : EqDecision JSON := @go in
    match x, y with
    | JNull, JNull => left _
    | JBool a, JBool b => cast_if (decide (a = b))
    | JNum a, JNum b => cast_if (decide (a = b))
    | JStr a, JStr b => cast_if (decide (a = b))
    | JArr a, JArr b => cast_if (decide (a = b))
    | JObj a, JObj b => cast_if (decide (a = b))
    | _, _ => right _
    end); congruence.
Defined.

(** Modelled from the spec: the interface [ITccProfile] of
    [common/models/TccProfile], of which the service reads and writes only
    [name]; the remaining members are kept as they come, in order. *)
Record Profile : Type := mkProfile {
  name : string;
  members : list (string * JSON)
}.

Global Instance Profile_eq_dec : EqDecision Profile.
Proof. solve_decision. Defined.

Global Instance Profile_inhabited : Inhabited Profile :=
  populate (mkProfile "" []).

(** Modelled from the spec: the interface [ITccSettings] of
    [common/models/TccSettings]: the map from state identifier to profile
    name, and the remaining global members. *)
Record Settings : Type := mkSettings {
  stateMap : gmap string string;
  globals : list (string * JSON)
}.

Global Instance Settings_eq_dec : EqDecision Settings.
Proof. solve_decision. Defined.

Global Instance Settings_inhabited : Inhabited Settings :=
  populate (mkSettings ∅ []).

(** [newSettings.stateMap[stateId] = profileName] on the value. *)
Definition set_stateMap (stateId profileName : string) (s : Settings) : Settings :=
  mkSettings (<[stateId := profileName]> (stateMap s)) (globals s).

(** ** The text [JSON.stringify] produces

    The text is kept as its sequence of lexical tokens (the separating
    commas and colons carry no information and are left out). *)
Inductive token : Type :=
  | TNull
  | TBool (b : bool)
  | TNum (n : Z)
  | TStr (s : string)
  | TOpenArr
  | TCloseArr
  | TOpenObj
  | TCloseObj.

Global Instance token_eq_dec : EqDecision token.
Proof. solve_decision. Defined.

Fixpoint tokens (j : JSON) : list token :=
  match j with
  | JNull => [TNull]
  | JBool b => [TBool b]
  | JNum n => [TNum n]
  | JStr s => [TStr s]
  | JArr items =>
      TOpenArr ::
      (fix go (l : list JSON) : list token :=
         match l with
         | [] => [TCloseArr]
         | x :: l' => tokens x ++ go l'
         end) items
  | JObj members =>
      TOpenObj ::
      (fix go (l : list (string * JSON)) : list token :=
         match l with
         | [] => [TCloseObj]
         | (k, v) :: l' => TStr k :: tokens v ++ go l'
         end) members
  end.

(** A profile object as a JSON value: [name] first, then the other members. *)
Definition profile_json (p : Profile) : JSON :=
  JObj (("name"%string, JStr (name p)) :: members p).

(** [JSON.stringify(x)] for [x] a profile or [undefined]: the text of the
    object, and [undefined] (no text at all) for [undefined]. *)
Definition JSON_stringify (x : option Profile) : option (list token) :=
  (tokens ∘ profile_json) <$> x.

(** The closing part of an array's and of an object's text. *)
Definition arr_tokens : list JSON → list token :=
  fix go l :=
    match l with
    | [] => [TCloseArr]
    | x :: l' => tokens x ++ go l'
    end.

Definition obj_tokens : list (string * JSON) → list token :=
  fix go l :=
    match l with
    | [] => [TCloseObj]
    | (k, v) :: l' => TStr k :: tokens v ++ go l'
    end.


(** ** Arrays

    An array is the list of its slots; [None] is a hole (or [null]), which
    [JSON.stringify] writes as [null]. *)

(** [a[i]]: [undefined] for a hole, for an index outside the array, and for
    an index that is negative or [undefined]. *)
Definition js_index {X : Type} (a : list (option X)) (i : option Z) : option X :=
  match i with
  | Some z => if bool_decide (0 ≤ z) then mjoin (a !! Z.to_nat z) else None
  | None => None
  end.

(** [a[i] = x].  Inside the array the slot is replaced; past the end the
    array grows, with holes in between; a negative or [undefined] key
    becomes an ordinary property of the array object, which neither
    [length] nor [JSON.stringify] sees. *)
Definition js_assign {X : Type} (a : list (option X)) (i : option Z) (x : option X)
  : list (option X) :=
  match i with
  | Some z =>
      if bool_decide (0 ≤ z) then
        let n := Z.to_nat z in
        if bool_decide (n < length a)%nat then <[n := x]> a
        else a ++ replicate (n - length a) None ++ [x]
      else a
  | None => a
  end.

(** [a.findIndex(P)] and [a.find(P)]. *)
Fixpoint findIndex_from {X : Type} (P : X → bool) (a : list X) (i : Z) : Z :=
  match a with
  | [] => -1
  | e :: a' => if P e then i else findIndex_from P a' (i + 1)
  end.

Definition Array_findIndex {X : Type} (P : X → bool) (a : list X) : Z :=
  findIndex_from P a 0.

Fixpoint Array_find {X : Type} (P : option X → bool) (a : list (option X)) : option X :=
  match a with
  | [] => None
  | e :: a' => if P e then e else Array_find P a'
  end.

(** [a.filter(P)]: the elements that satisfy [P], in order, in a new
    array.  A hole is not visited and not kept. *)
Fixpoint Array_filter {X : Type} (P : X → bool) (a : list (option X)) : list (option X) :=
  match a with
  | [] => []
  | Some x :: a' => if P x then Some x :: Array_filter P a' else Array_filter P a'
  | None :: a' => Array_filter P a'
  end.

(** ** The store and the outside world *)

(** What a staging file holds. *)
Inductive FileData : Type :=
  | ProfilesData (ps : list (option Profile))
  | SettingsData (s : Settings).

Global Instance FileData_eq_dec : EqDecision FileData.
Proof. solve_decision. Defined.

(** Everything outside the service object: the objects of the JavaScript
    heap, the latest value the D-Bus client holds, and the files. *)
Record World : Type := mkWorld {
  profile_objs : gmap loc Profile;
  array_objs : gmap loc (list (option loc));
  settings_objs : gmap loc Settings;
  (** [dbus.customProfiles.value] *)
  dbus_customProfiles : loc;
  (** what [config.getSettingsNoThrow()] finds on disk *)
  settings_file : Settings;
  files : gmap string FileData
}.

Definition with_profile_objs (f : gmap loc Profile → gmap loc Profile) (w : World) : World :=
  mkWorld (f (profile_objs w)) (array_objs w) (settings_objs w)
          (dbus_customProfiles w) (settings_file w) (files w).

Definition with_array_objs
    (f : gmap loc (list (option loc)) → gmap loc (list (option loc))) (w : World) : World :=
  mkWorld (profile_objs w) (f (array_objs w)) (settings_objs w)
          (dbus_customProfiles w) (settings_file w) (files w).

Definition with_settings_objs (f : gmap loc Settings → gmap loc Settings) (w : World) : World :=
  mkWorld (profile_objs w) (array_objs w) (f (settings_objs w))
          (dbus_customProfiles w) (settings_file w) (files w).

Definition with_files (f : gmap string FileData → gmap string FileData) (w : World) : World :=
  mkWorld (profile_objs w) (array_objs w) (settings_objs w)
          (dbus_customProfiles w) (settings_file w) (f (files w)).

(** The value of the object a reference points to.  A reference always
    points to an object in JavaScript; where the store has none, the
    model reads the empty profile, array or settings. *)
Definition profile_at (w : World) (l : loc) : Profile := profile_objs w !!! l.
Definition array_at (w : World) (l : loc) : list (option loc) := array_objs w !!! l.
Definition settings_at (w : World) (l : loc) : Settings := settings_objs w !!! l.

(** The value in an array slot, or of an expression that may be
    [undefined]. *)
Definition slot_value (w : World) (e : option loc) : option Profile :=
  match e with
  | Some l => Some (profile_at w l)
  | None => None
  end.

(** What [JSON.stringify] writes for an array of profiles. *)
Definition array_value (w : World) (a : list (option loc)) : list (option Profile) :=
  slot_value w <$> a.

(** The callback [p => p.name === n].  On a hole the callback would raise
    a TypeError; arrays of type [ITccProfile[]] hold none, and the model
    answers [false]. *)
Definition name_is (w : World) (n : string) (e : option loc) : bool :=
  match e with
  | Some l => bool_decide (name (profile_at w l) = n)
  | None => false
  end.

(** ** The service object *)

Record ConfigService : Type := mkConfigService {
  defaultProfiles : loc;
  customProfiles : loc;
  settings : loc;
  currentProfileEdit : option loc;
  (** [undefined] until [setCurrentEditingProfile] is first called *)
  currentProfileEditIndex : option Z
}.

(** Calls to collaborators, in the order they are made. *)
Inductive Event : Type :=
  | config_writeProfiles_call (ps : list (option Profile)) (path : string)
  | config_writeSettings_call (s : Settings) (path : string)
  | ipcRenderer_sendSync_call (channel cmd : string)
  | utils_execFile_call (cmd : string)
  | settingsSubject_next (s : loc)
  | editingProfileSubject_next (p : option loc)
  | editingProfile_next (p : option loc).

Global Instance Event_eq_dec : EqDecision Event.
Proof. solve_decision. Defined.

Record State : Type := mkState {
  world : World;
  this : ConfigService;
  log : list Event
}.

(** ** State transformers *)

Definition M (A : Type) : Type := State → A * State.

Definition ret {A : Type} (a : A) : M A := λ σ, (a, σ).

Definition bind {A B : Type} (m : M A) (k : A → M B) : M B :=
  λ σ, let '(a, σ') := m σ in k a σ'.

Notation "x <- m ;; k" := (bind m (λ x, k))
  (at level 20, m at level 99, k at level 200, only parsing).
Notation "m ;; k" := (bind m (λ _, k))
  (at level 100, k at level 200, right associativity, only parsing).

Definition get_world : M World := λ σ, (world σ, σ).
Definition get_this : M ConfigService := λ σ, (this σ, σ).
Definition modify_world (f : World → World) : M unit :=
  λ σ, (tt, mkState (f (world σ)) (this σ) (log σ)).
Definition modify_this (f : ConfigService → ConfigService) : M unit :=
  λ σ, (tt, mkState (world σ) (f (this σ)) (log σ)).
Definition emit (e : Event) : M unit :=
  λ σ, (tt, mkState (world σ) (this σ) (log σ ++ [e])).

(** Assignments to the fields of [this]. *)
Definition set_customProfiles (l : loc) : M unit :=
  modify_this (λ t, mkConfigService (defaultProfiles t) l (settings t)
                      (currentProfileEdit t) (currentProfileEditIndex t)).
Definition set_defaultProfiles (l : loc) : M unit :=
  modify_this (λ t, mkConfigService l (customProfiles t) (settings t)
                      (currentProfileEdit t) (currentProfileEditIndex t)).
Definition set_settings (l : loc) : M unit :=
  modify_this (λ t, mkConfigService (defaultProfiles t) (customProfiles t) l
                      (currentProfileEdit t) (currentProfileEditIndex t)).
Definition set_currentProfileEdit (p : option loc) : M unit :=
  modify_this (λ t, mkConfigService (defaultProfiles t) (customProfiles t) (settings t)
                      p (currentProfileEditIndex t)).
Definition set_currentProfileEditIndex (i : Z) : M unit :=
  modify_this (λ t, mkConfigService (defaultProfiles t) (customProfiles t) (settings t)
                      (currentProfileEdit t) (Some i)).

(** Object creation: a new object gets a reference no object has yet. *)
Definition new_profile (p : Profile) : M loc :=
  w <- get_world;;
  let l := fresh (dom (profile_objs w)) in
  modify_world (with_profile_objs (insert l p));;
  ret l.

Definition new_array (a : list (option loc)) : M loc :=
  w <- get_world;;
  let l := fresh (dom (array_objs w)) in
  modify_world (with_array_objs (insert l a));;
  ret l.

Definition new_settings (s : Settings) : M loc :=
  w <- get_world;;
  let l := fresh (dom (settings_objs w)) in
  modify_world (with_settings_objs (insert l s));;
  ret l.

(** Reads and writes through a reference. *)
Definition read_profile (l : loc) : M Profile := w <- get_world;; ret (profile_at w l).
Definition read_array (l : loc) : M (list (option loc)) := w <- get_world;; ret (array_at w l).
Definition read_settings (l : loc) : M Settings := w <- get_world;; ret (settings_at w l).

Definition write_profile (l : loc) (p : Profile) : M unit :=
  modify_world (with_profile_objs (insert l p)).
Definition write_array (l : loc) (a : list (option loc)) : M unit :=
  modify_world (with_array_objs (insert l a)).
Definition write_settings (l : loc) (s : Settings) : M unit :=
  modify_world (with_settings_objs (insert l s)).

(** [p.name = n] *)
Definition assign_name (l : loc) (n : string) : M unit :=
  p <- read_profile l;; write_profile l (mkProfile n (members p)).

(** [s.stateMap[stateId] = profileName] *)
Definition assign_stateMap (l : loc) (stateId profileName : string) : M unit :=
  s <- read_settings l;; write_settings l (set_stateMap stateId profileName s).

(** [a[i] = x] *)
Definition assign_slot (a : loc) (i : option Z) (x : option loc) : M unit :=
  slots <- read_array a;; write_array a (js_assign slots i x).

(** ** ConfigHandler

    The class [ConfigHandler] of [common/classes/ConfigHandler] is not
    among the sources; the four methods the service calls are modelled
    from the spec.  [copyConfig] makes a deep copy, by
    [JSON.parse(JSON.stringify(config))]: the value is read off the
    objects, then new objects are made for it. *)

(** [JSON.parse] of the text of a profile, of an array slot, of the slots
    of an array. *)
Definition JSON_parse_profile (v : Profile) : M loc := new_profile v.

Definition JSON_parse_slot (v : option Profile) : M (option loc) :=
  match v with
  | Some p => c <- JSON_parse_profile p;; ret (Some c)
  | None => ret None
  end.

Fixpoint JSON_parse_slots (vs : list (option Profile)) : M (list (option loc)) :=
  match vs with
  | [] => ret []
  | v :: vs' =>
      c <- JSON_parse_slot v;;
      cs <- JSON_parse_slots vs';;
      ret (c :: cs)
  end.

(** Modelled from the spec: [ConfigHandler.copyConfig<ITccProfile>(p)],
    a deep copy of the profile. *)
Definition copyConfig_profile (p : loc) : M loc :=
  v <- read_profile p;; JSON_parse_profile v.

(** Modelled from the spec: [ConfigHandler.copyConfig] of an expression
    that may be [undefined].  The method raises on [undefined]; no caller
    passes it, and the model hands [undefined] back. *)
Definition copyConfig_slot (e : option loc) : M (option loc) :=
  w <- get_world;; JSON_parse_slot (slot_value w e).

(** Modelled from the spec: [ConfigHandler.copyConfig<ITccProfile[]>(a)],
    a deep copy of the array and of every profile in it. *)
Definition copyConfig_profiles (a : loc) : M loc :=
  slots <- read_array a;;
  w <- get_world;;
  copies <- JSON_parse_slots (array_value w slots);;
  new_array copies.

(** Modelled from the spec: [ConfigHandler.copyConfig<ITccSettings>(s)],
    a deep copy of the settings. *)
Definition copyConfig_settings (s : loc) : M loc :=
  v <- read_settings s;; new_settings v.

(** Modelled from the spec: [ConfigHandler.writeProfiles(customProfiles,
    path)], which puts the collection as [JSON.stringify] renders it into
    the file at [path], in place of what was there. *)
Definition config_writeProfiles (customProfiles : loc) (path : string) : M unit :=
  slots <- read_array customProfiles;;
  w <- get_world;;
  let data := array_value w slots in
  modify_world (with_files (insert path (ProfilesData data)));;
  emit (config_writeProfiles_call data path).

(** Modelled from the spec: [ConfigHandler.writeSettings(settings, path)],
    the same for a settings object. *)
Definition config_writeSettings (s : loc) (path : string) : M unit :=
  v <- read_settings s;;
  modify_world (with_files (insert path (SettingsData v)));;
  emit (config_writeSettings_call v path).

(** Modelled from the spec: [ConfigHandler.getSettingsNoThrow()], which
    parses the settings file into a new object (the default settings
    when the file cannot be read; [settings_file] stands for either). *)
Definition config_getSettingsNoThrow : M loc :=
  w <- get_world;; new_settings (settings_file w).

(** ** Collaborators

    The privilege-raising helper is outside the program: a call hands it
    the command line and the world (it reads the staging files), and it
    answers with an outcome and the world as the daemon left it.
    [ipcRenderer_sendSync] answers with the [error] member of the result
    object ([None] for [undefined]); [utils_execFile] answers whether the
    promise was fulfilled. *)
Record Collaborators : Type := mkCollaborators {
  ipcRenderer_sendSync : string → string → World → option string * World;
  utils_execFile : string → World → bool * World;
  (** [environment.production] *)
  environment_production : bool;
  (** [TccPaths.TCCD_EXEC_FILE] *)
  TCCD_EXEC_FILE : string;
  (** [electron.process.cwd()] *)
  process_cwd : string
}.

(** ** The methods of [ConfigService]

    Each definition follows the method of the same name, statement by
    statement; line numbers are those of [config.service.ts]. *)
Section ConfigService.

Variable env : Collaborators.

(** [this.electron.ipcRenderer.sendSync(channel, cmd)], and
    [this.utils.execFile(cmd)] awaited. *)
Definition sendSync (channel cmd : string) : M (option string) :=
  λ σ, let '(result_error, w) := ipcRenderer_sendSync env channel cmd (world σ) in
       (result_error,
        mkState w (this σ) (log σ ++ [ipcRenderer_sendSync_call channel cmd])).

Definition execFile (cmd : string) : M bool :=
  λ σ, let '(fulfilled, w) := utils_execFile env cmd (world σ) in
       (fulfilled, mkState w (this σ) (log σ ++ [utils_execFile_call cmd])).

(** The [tccdExec] every escalation computes (lines 169-173). *)
Definition tccdExec : string :=
  if environment_production env then TCCD_EXEC_FILE env
  else process_cwd env +:+ "/dist/tuxedo-control-center/data/service/tccd".

(** The two subscriptions of the constructor (lines 114-119). *)
Definition customProfiles_subscriber (nextCustomProfiles : loc) : M unit :=
  set_customProfiles nextCustomProfiles.

Definition defaultProfiles_subscriber (nextDefaultProfiles : loc) : M unit :=
  set_defaultProfiles nextDefaultProfiles.

(** Lines 126-134. *)
Definition updateConfigData : M unit :=
  w <- get_world;;
  set_customProfiles (dbus_customProfiles w);;
  s <- config_getSettingsNoThrow;;
  set_settings s;;
  emit (settingsSubject_next s).

(** Lines 136-158: the accessors. *)
Definition getSettings : M loc :=
  t <- get_this;; ret (settings t).

Definition getCustomProfiles : M loc :=
  t <- get_this;; ret (customProfiles t).

Definition getDefaultProfiles : M loc :=
  t <- get_this;; ret (defaultProfiles t).

Definition getAllProfiles : M loc :=
  t <- get_this;;
  defaults <- read_array (defaultProfiles t);;
  c <- getCustomProfiles;;
  customs <- read_array c;;
  new_array (defaults ++ customs).

(** Lines 160-180.  The result of [sendSync] is not looked at. *)
Definition setActiveProfile (profileName stateId : string) : M unit :=
  s <- getSettings;;
  newSettings <- copyConfig_settings s;;
  assign_stateMap newSettings stateId profileName;;
  let tmpSettingsPath := "/tmp/tmptccsettings"%string in
  config_writeSettings newSettings tmpSettingsPath;;
  result <- sendSync "exec-cmd-sync"
              ("pkexec " +:+ tccdExec +:+ " --new_settings " +:+ tmpSettingsPath);;
  updateConfigData.

(** Lines 216-229: [result.error === undefined]. *)
Definition pkexecWriteCustomProfiles (customProfiles : loc) : M bool :=
  let tmpProfilesPath := "/tmp/tmptccprofiles"%string in
  config_writeProfiles customProfiles tmpProfilesPath;;
  result_error <- sendSync "exec-cmd-sync"
                    ("pkexec " +:+ tccdExec +:+ " --new_profiles " +:+ tmpProfilesPath);;
  ret (bool_decide (result_error = None)).

(** Lines 245-261: [true] when the promise of [execFile] is fulfilled. *)
Definition pkexecWriteCustomProfilesAsync (customProfiles : loc) : M bool :=
  let tmpProfilesPath := "/tmp/tmptccprofiles"%string in
  config_writeProfiles customProfiles tmpProfilesPath;;
  execFile ("pkexec " +:+ tccdExec +:+ " --new_profiles " +:+ tmpProfilesPath).

(** Lines 315-335. *)
Definition pkexecWriteConfigAsync (settings customProfiles : loc) : M bool :=
  let tmpProfilesPath := "/tmp/tmptccprofiles"%string in
  let tmpSettingsPath := "/tmp/tmptccsettings"%string in
  config_writeProfiles customProfiles tmpProfilesPath;;
  config_writeSettings settings tmpSettingsPath;;
  execFile ("pkexec " +:+ tccdExec +:+ " --new_profiles " +:+ tmpProfilesPath
              +:+ " --new_settings " +:+ tmpSettingsPath).

(** Lines 342-344. *)
Definition getCurrentEditingProfile : M (option loc) :=
  t <- get_this;; ret (currentProfileEdit t).

(** Lines 346-362. *)
Definition getProfileByName (searchedProfileName : string) : M (option loc) :=
  all <- getAllProfiles;;
  slots <- read_array all;;
  w <- get_world;;
  let foundProfile := Array_find (name_is w searchedProfileName) slots in
  match foundProfile with
  | Some l => c <- copyConfig_profile l;; ret (Some c)
  | None => ret None
  end.

Definition getCustomProfileByName (searchedProfileName : string) : M (option loc) :=
  c <- getCustomProfiles;;
  slots <- read_array c;;
  w <- get_world;;
  let foundProfile := Array_find (name_is w searchedProfileName) slots in
  match foundProfile with
  | Some l => c <- copyConfig_profile l;; ret (Some c)
  | None => ret None
  end.

(** Lines 182-202. *)
Definition copyProfile (profileName newProfileName : string) : M bool :=
  profileToCopy <- getProfileByName profileName;;
  match profileToCopy with
  | None => ret false
  | Some toCopy =>
      existingProfile <- getProfileByName newProfileName;;
      match existingProfile with
      | Some _ => ret false
      | None =>
          newProfile <- copyConfig_profile toCopy;;
          assign_name newProfile newProfileName;;
          c <- getCustomProfiles;;
          customs <- read_array c;;
          newProfileList <- new_array (customs ++ [Some newProfile]);;
          success <- pkexecWriteCustomProfilesAsync newProfileList;;
          (if success then updateConfigData else ret tt);;
          ret success
      end
  end.

(** Lines 204-214.  The callback is [profile => profile.name !==
    profileNameToDelete]. *)
Definition deleteCustomProfile (profileNameToDelete : string) : M bool :=
  c <- getCustomProfiles;;
  customs <- read_array c;;
  w <- get_world;;
  newProfileList <-
    new_array (Array_filter
                 (λ l, negb (bool_decide (name (profile_at w l) = profileNameToDelete)))
                 customs);;
  kept <- read_array newProfileList;;
  c' <- getCustomProfiles;;
  customs' <- read_array c';;
  if bool_decide (length kept = length customs') then ret false
  else
    success <- pkexecWriteCustomProfilesAsync newProfileList;;
    (if success then updateConfigData else ret tt);;
    ret success.

(** Lines 370-375. *)
Definition editProfileChanges : M bool :=
  t <- get_this;;
  match currentProfileEdit t with
  | None => ret false
  | Some _ =>
      customs <- read_array (customProfiles t);;
      let currentSavedProfile := js_index customs (currentProfileEditIndex t) in
      w <- get_world;;
      ret (negb (bool_decide
                   (JSON_stringify (slot_value w (currentProfileEdit t))
                    = JSON_stringify (slot_value w currentSavedProfile))))
  end.

(** Lines 231-243. *)
Definition writeCurrentEditingProfile : M bool :=
  changes <- editProfileChanges;;
  if changes then
    t <- get_this;;
    changedCustomProfiles <- copyConfig_profiles (customProfiles t);;
    edit <- getCurrentEditingProfile;;
    assign_slot changedCustomProfiles (currentProfileEditIndex t) edit;;
    result <- pkexecWriteCustomProfiles changedCustomProfiles;;
    (if result then updateConfigData else ret tt);;
    ret result
  else ret false.

(** The loop of lines 287-289:
    [for (const stateId of states) newSettings.stateMap[stateId] = profile.name]. *)
Fixpoint assign_states (newSettings : loc) (states : list string) (profile : loc) : M unit :=
  match states with
  | [] => ret tt
  | stateId :: rest =>
      p <- read_profile profile;;
      assign_stateMap newSettings stateId (name p);;
      assign_states newSettings rest profile
  end.

(** Lines 263-299. *)
Definition writeProfile (currentProfileName : string) (profile : loc)
    (states : option (list string)) : M bool :=
  t <- get_this;;
  customs <- read_array (customProfiles t);;
  defaults <- read_array (defaultProfiles t);;
  w <- get_world;;
  let profileIndex := Array_findIndex (name_is w currentProfileName) customs in
  let existingDefaultProfileWithNewName :=
    Array_findIndex (name_is w (name (profile_at w profile))) defaults in
  let exisitingCustomProfileWithNewName :=
    Array_findIndex (name_is w (name (profile_at w profile))) customs in
  customProfilesCopy <- copyConfig_profiles (customProfiles t);;
  let willOverwriteProfile :=
    negb (bool_decide (profileIndex = -1))
    && bool_decide (existingDefaultProfileWithNewName = -1)
    && (bool_decide (exisitingCustomProfileWithNewName = -1)
        || bool_decide (exisitingCustomProfileWithNewName = profileIndex)) in
  (if willOverwriteProfile
   then assign_slot customProfilesCopy (Some profileIndex) (Some profile)
   else ret tt);;
  s <- getSettings;;
  newSettings <- copyConfig_settings s;;
  match states with
  | Some sts => assign_states newSettings sts profile
  | None => ret tt
  end;;
  success <- pkexecWriteConfigAsync newSettings customProfilesCopy;;
  (if success then updateConfigData else ret tt);;
  ret success.

(** Lines 301-313. *)
Definition saveSettings : M bool :=
  t <- get_this;;
  customProfilesCopy <- copyConfig_profiles (customProfiles t);;
  s <- getSettings;;
  newSettings <- copyConfig_settings s;;
  success <- pkexecWriteConfigAsync newSettings customProfilesCopy;;
  (if success then updateConfigData else ret tt);;
  ret success.

(** Lines 384-401.  The first branch does not return: the search below
    runs for [undefined] too, and finds nothing, a name being a string. *)
Definition setCurrentEditingProfile (customProfileName : option string) : M bool :=
  match customProfileName with
  | None =>
      set_currentProfileEditIndex (-1);;
      set_currentProfileEdit None;;
      emit (editingProfileSubject_next None);;
      emit (editingProfile_next None)
  | Some _ => ret tt
  end;;
  t <- get_this;;
  customs <- read_array (customProfiles t);;
  w <- get_world;;
  let index :=
    Array_findIndex
      (λ e, match customProfileName with
            | Some n => name_is w n e
            | None => false
            end) customs in
  set_currentProfileEditIndex index;;
  if bool_decide (index = -1) then ret false
  else
    set_currentProfileEditIndex index;;
    copy <- copyConfig_slot (js_index customs (Some index));;
    set_currentProfileEdit copy;;
    emit (editingProfileSubject_next copy);;
    emit (editingProfile_next copy);;
    ret true.

End ConfigService.

(** ** The texts of the built-in profiles

    The map [defaultProfileInfos] the constructor fills (lines 62 and
    87-110) and the two lookups in it (lines 407-423).  The descriptor
    keys of [DefaultProfileNames] and the translation function [i18n]
    are not among the sources and are taken as they come; [i18n] gets
    the [value] and the [id] of its argument. *)
Record IProfileTextMappings : Type := mkIProfileTextMappings {
  text_name : string;
  text_description : string
}.

Record DefaultProfileNames : Type := mkDefaultProfileNames {
  MaxEnergySave : string;
  Quiet : string;
  Office : string;
  HighPerformance : string;
  MaximumPerformance : string
}.

Section DefaultProfileInfos.

Variable names : DefaultProfileNames.
Variable i18n : string → string → string.

Definition defaultProfileInfos : gmap string IProfileTextMappings :=
  <[MaximumPerformance names :=
      mkIProfileTextMappings
        (i18n "Max Performance" "profileNameMaximumPerformance")
        (i18n "Maximum performance at the cost of very loud fan noise levels and very high temperatures."
              "profileDescMaximumPerformance")]>
  (<[HighPerformance names :=
      mkIProfileTextMappings
        (i18n "High Performance" "profileNameHighPerformance")
        (i18n "High performance for gaming and demanding computing tasks at the cost of moderate to high fan noise and higher temperatures."
              "profileDescHighPerformance")]>
  (<[Office names :=
      mkIProfileTextMappings
        (i18n "Office and Multimedia" "profileNameOffice")
        (i18n "Mid-tier performance for more demanding office tasks or multimedia usage and quiet fans."
              "profileDescOffice")]>
  (<[Quiet names :=
      mkIProfileTextMappings
        (i18n "Quiet" "profileNameQuiet")
        (i18n "Low performance for light office tasks for very quiet fans and low power consumption."
              "profileDescQuiet")]>
  (<[MaxEnergySave names :=
      mkIProfileTextMappings
        (i18n "Powersave extreme" "profileNamePowersaveExtreme")
        (i18n "Lowest possible power consumption and silent fans at the cost of extremely low performance."
              "profileDescPowersaveExtreme")]> ∅)))).

Definition getDefaultProfileName (descriptor : string) : option string :=
  match defaultProfileInfos !! descriptor with
  | Some info => Some (text_name info)
  | None => None
  end.

Definition getDefaultProfileDescription (descriptor : string) : option string :=
  match defaultProfileInfos !! descriptor with
  | Some info => Some (text_description info)
  | None => None
  end.

End DefaultProfileInfos.

(** ** Reading the state *)

(** The values of the stored collections, of the stored settings and of
    the profile under edit. *)
Definition customs_value (σ : State) : list (option Profile) :=
  array_value (world σ) (array_at (world σ) (customProfiles (this σ))).

Definition defaults_value (σ : State) : list (option Profile) :=
  array_value (world σ) (array_at (world σ) (defaultProfiles (this σ))).

Definition settings_value (σ : State) : Settings :=
  settings_at (world σ) (settings (this σ)).

Definition draft_value (σ : State) : option Profile :=
  slot_value (world σ) (currentProfileEdit (this σ)).

(** Some profile of the collection is named [n]. *)
Definition named (n : string) (vs : list (option Profile)) : Prop :=
  ∃ i p, vs !! i = Some (Some p) ∧ name p = n.

(** The profile at position [i] of the collection is named [n]. *)
Definition named_at (n : string) (vs : list (option Profile)) (i : nat) : Prop :=
  ∃ p, vs !! i = Some (Some p) ∧ name p = n.

(** The name [n] resolves to position [i] of the collection: the first
    profile named [n] is there. *)
Definition resolves (n : string) (vs : list (option Profile)) (i : nat) : Prop :=
  named_at n vs i ∧
  ∀ j p, (j < i)%nat → vs !! j = Some (Some p) → name p ≠ n.

(** No two profiles of the collection share a name. *)
Definition unique_names (vs : list (option Profile)) : Prop :=
  ∀ j k p q, vs !! j = Some (Some p) → vs !! k = Some (Some q) →
             name p = name q → j = k.

(** The first profile named [n] among the values of a collection. *)
Fixpoint first_named (n : string) (vs : list (option Profile)) : option Profile :=
  match vs with
  | [] => None
  | Some p :: vs' => if bool_decide (name p = n) then Some p else first_named n vs'
  | None :: vs' => first_named n vs'
  end.

(** Every reference the service holds to a collection, and every slot of
    the two collections, points to an object of the store. *)
Definition live_slot (w : World) (e : option loc) : bool :=
  match e with
  | Some l => bool_decide (l ∈ dom (profile_objs w))
  | None => true
  end.

Definition well_formed (σ : State) : bool :=
  bool_decide (customProfiles (this σ) ∈ dom (array_objs (world σ)))
  && bool_decide (defaultProfiles (this σ) ∈ dom (array_objs (world σ)))
  && forallb (live_slot (world σ)) (array_at (world σ) (customProfiles (this σ)))
  && forallb (live_slot (world σ)) (array_at (world σ) (defaultProfiles (this σ))).

(** The profile stored at the position the edit session captured, if
    there is one. *)
Definition saved_value (σ : State) : option Profile :=
  slot_value (world σ)
    (js_index (array_at (world σ) (customProfiles (this σ)))
              (currentProfileEditIndex (this σ))).

(** The position [i] is one of an array of [n] slots. *)
Definition in_bounds (i : option Z) (n : nat) : Prop :=
  match i with
  | Some z => 0 ≤ z < Z.of_nat n
  | None => False
  end.


(** The settings with every listed state mapped to [profileName]; no
    list, no change. *)
Definition remapped (states : option (list string)) (profileName : string)
    (s : Settings) : Settings :=
  foldl (λ acc stateId, set_stateMap stateId profileName acc) s (default [] states).

(** The condition under which [writeProfile] overwrites, on the positions
    [findIndex] answered. *)
Definition willOverwrite (profileIndex existingDefault existingCustom : Z) : bool :=
  negb (bool_decide (profileIndex = -1))
  && bool_decide (existingDefault = -1)
  && (bool_decide (existingCustom = -1) || bool_decide (existingCustom = profileIndex)).

(** ** What callers see

    The value an accessor hands out is the value of the object its result
    points to at the time of the call. *)
Definition getSettings_value (σ : State) : Settings :=
  let '(s, σ') := getSettings σ in settings_at (world σ') s.

Definition getCustomProfiles_value (σ : State) : list (option Profile) :=
  let '(a, σ') := getCustomProfiles σ in array_value (world σ') (array_at (world σ') a).

Definition getAllProfiles_value (σ : State) : list (option Profile) :=
  let '(a, σ') := getAllProfiles σ in array_value (world σ') (array_at (world σ') a).

Definition getProfileByName_value (n : string) (σ : State) : option Profile :=
  let '(p, σ') := getProfileByName n σ in slot_value (world σ') p.

Definition getCustomProfileByName_value (n : string) (σ : State) : option Profile :=
  let '(p, σ') := getCustomProfileByName n σ in slot_value (world σ') p.

(** The state [σ'] shows what [σ] shows: the stored settings and
    collections have the same values, and every accessor hands out the
    same value. *)
Definition same_observations (σ σ' : State) : Prop :=
  settings_value σ' = settings_value σ
  ∧ defaults_value σ' = defaults_value σ
  ∧ customs_value σ' = customs_value σ
  ∧ getSettings_value σ' = getSettings_value σ
  ∧ getCustomProfiles_value σ' = getCustomProfiles_value σ
  ∧ getAllProfiles_value σ' = getAllProfiles_value σ
  ∧ (∀ n, getProfileByName_value n σ' = getProfileByName_value n σ)
  ∧ (∀ n, getCustomProfileByName_value n σ' = getCustomProfileByName_value n σ).

(** A caller's mutation of an object it holds a reference to: whatever
    the caller does to the object leaves some value in it. *)
Definition mutate_profile (l : loc) (p : Profile) (σ : State) : State :=
  (write_profile l p σ).2.

Definition mutate_settings (l : loc) (s : Settings) (σ : State) : State :=
  (write_settings l s σ).2.

Definition mutate_array (l : loc) (a : list (option loc)) (σ : State) : State :=
  (write_array l a σ).2.

(** An accessor hands out a defensive copy: nothing a caller does to the
    object returned, or to an object reached through it, changes what
    the service shows. *)
Definition copies_profile (acc : M (option loc)) : Prop :=
  ∀ σ c p', well_formed σ = true → (acc σ).1 = Some c →
    same_observations σ (mutate_profile c p' (acc σ).2).

Definition copies_settings (acc : M loc) : Prop :=
  ∀ σ s', well_formed σ = true →
    same_observations σ (mutate_settings (acc σ).1 s' (acc σ).2).

Definition copies_profiles (acc : M loc) : Prop :=
  ∀ σ, well_formed σ = true →
    (∀ a', same_observations σ (mutate_array (acc σ).1 a' (acc σ).2))
    ∧ (∀ l p', Some l ∈ array_at (world (acc σ).2) (acc σ).1 →
         same_observations σ (mutate_profile l p' (acc σ).2)).

(** ** After an escalation

    What the service holds once an operation that stages, escalates and
    refreshes on success has run: [w2] is the world the helper left.  On
    success the custom collection is the D-Bus client's value and the
    settings are a reading of the settings file, while the built-in
    collection and the edit session are what they were, and the profiles
    and arrays are as the helper left them; on failure no field of the
    service has changed. *)
Definition settled (success : bool) (w2 : World) (σ σ' : State) : Prop :=
  if success then
    customProfiles (this σ') = dbus_customProfiles w2
    ∧ settings_value σ' = settings_file w2
    ∧ defaultProfiles (this σ') = defaultProfiles (this σ)
    ∧ currentProfileEdit (this σ') = currentProfileEdit (this σ)
    ∧ currentProfileEditIndex (this σ') = currentProfileEditIndex (this σ)
    ∧ profile_objs (world σ') = profile_objs w2
    ∧ array_objs (world σ') = array_objs w2
  else this σ' = this σ ∧ world σ' = w2.

(** The D-Bus client of world [w2] delivers the collection [ps]. *)
Definition delivers (w2 : World) (ps : list (option Profile)) : Prop :=
  array_value w2 (array_at w2 (dbus_customProfiles w2)) = ps.

(** A helper that installs what was staged: run where the staged
    collection is [ps], it reports no error, the D-Bus client then
    delivers [ps], and the profile objects that existed are what they
    were.  The first part is about [utils.execFile], the second about
    [ipcRenderer.sendSync]. *)
Definition installs (env : Collaborators) : Prop :=
  (∀ cmd w ps,
     files w !! "/tmp/tmptccprofiles"%string = Some (ProfilesData ps) →
     let a := utils_execFile env cmd w in
     a.1 = true ∧ delivers a.2 ps ∧ profile_objs w ⊆ profile_objs a.2)
  ∧ (∀ channel cmd w ps,
       files w !! "/tmp/tmptccprofiles"%string = Some (ProfilesData ps) →
       let a := ipcRenderer_sendSync env channel cmd w in
       a.1 = None ∧ delivers a.2 ps ∧ profile_objs w ⊆ profile_objs a.2).

(** The array has no hole. *)
Definition dense {X : Type} (a : list (option X)) : bool :=
  forallb (λ e, bool_decide (is_Some e)) a.

(** ** A small configuration

    One built-in profile, two custom ones, and the settings that map the
    state [AC] to the built-in profile; a helper that succeeds and one
    that fails, both leaving the world as it is.  The fourth profile
    object is one a caller holds.  The third array is a later value of
    the custom collection, with [Play] deleted. *)
Module Sample.

Definition Office : Profile :=
  mkProfile "Office" [("description"%string, JStr "built in")].

Definition Work : Profile :=
  mkProfile "Work"
    [("cpu"%string, JObj [("governor"%string, JStr "powersave");
                          ("noTurbo"%string, JBool false)])].

Definition Play : Profile :=
  mkProfile "Play"
    [("cpu"%string, JObj [("governor"%string, JStr "performance");
                          ("noTurbo"%string, JBool false)])].

(** [Work] as a user has edited it, and the same under a new name. *)
Definition Work_edited : Profile :=
  mkProfile "Work"
    [("cpu"%string, JObj [("governor"%string, JStr "powersave");
                          ("noTurbo"%string, JBool true)])].

Definition Play_edited : Profile :=
  mkProfile "Play"
    [("cpu"%string, JObj [("governor"%string, JStr "performance");
                          ("noTurbo"%string, JBool true)])].

Definition on_AC : Settings := mkSettings {["AC"%string := "Office"%string]} [].

Definition heap : World :=
  mkWorld {[1%positive := Office; 2%positive := Work; 3%positive := Play;
            4%positive := Work_edited]}
          {[1%positive := [Some 1%positive];
            2%positive := [Some 2%positive; Some 3%positive];
            3%positive := [Some 2%positive]]}
          {[1%positive := on_AC]}
          2%positive on_AC ∅.

Definition service : ConfigService :=
  mkConfigService 1%positive 2%positive 1%positive None None.

Definition idle : State := mkState heap service [].

(** [Play] is under edit. *)
Definition editing : State :=
  (setCurrentEditingProfile (Some "Play"%string) idle).2.

(** [Play] is under edit and the draft has been changed. *)
Definition changed : State := mutate_profile 5%positive Play_edited editing.


(** [Play] is under edit, and the daemon has since delivered the
    collection without it. *)
Definition stale : State :=
  (customProfiles_subscriber 3%positive editing).2.

Definition helper_succeeds : Collaborators :=
  mkCollaborators (λ _ _ w, (None, w)) (λ _ w, (true, w))
                  true "/opt/tuxedo-control-center/tccd" "/".

Definition helper_fails : Collaborators :=
  mkCollaborators (λ _ _ w, (Some "dismissed"%string, w)) (λ _ w, (false, w))
                  true "/opt/tuxedo-control-center/tccd" "/".

(** A helper and daemon that install the staged collection: the daemon
    reads the staged file and its D-Bus client delivers a new array of
    new profile objects with the values read. *)
Definition install (w : World) : World :=
  match files w !! "/tmp/tmptccprofiles"%string with
  | Some (ProfilesData ps) =>
      let '(a, σ') := (copies <- JSON_parse_slots ps;; new_array copies)
                        (mkState w service []) in
      mkWorld (profile_objs (world σ')) (array_objs (world σ'))
              (settings_objs (world σ')) a (settings_file (world σ'))
              (files (world σ'))
  | _ => w
  end.

Definition daemon : Collaborators :=
  mkCollaborators (λ _ _ w, (None, install w)) (λ _ w, (true, install w))
                  true "/opt/tuxedo-control-center/tccd" "/".

End Sample.
(** * Properties *)

Local Set Warnings "-clear-no-such-hyp".

(** ** The text of a value determines it *)

(** Induction on JSON values that reaches into arrays and objects. *)
Section JSON_induction.
Variable P : JSON → Prop.
Hypothesis Pnull : P JNull.
Hypothesis Pbool : ∀ b, P (JBool b).
Hypothesis Pnum : ∀ n, P (JNum n).
Hypothesis Pstr : ∀ s, P (JStr s).
Hypothesis Parr : ∀ items, Forall P items → P (JArr items).
Hypothesis Pobj : ∀ ms, Forall (λ kv, P kv.2) ms → P (JObj ms).

Lemma JSON_nested_ind : ∀ j, P j.
Proof.
  fix IH 1. intros [ | b | n | s | items | ms].
  - exact Pnull.
  - apply Pbool.
  - apply Pnum.
  - apply Pstr.
  - apply Parr. induction items as [|x items IHitems]; constructor.
    + apply IH.
    + exact IHitems.
  - apply Pobj. induction ms as [|[k v] ms IHms]; constructor.
    + apply IH.
    + exact IHms.
Qed.
End JSON_induction.

(** No value's text starts with a closing bracket. *)
Lemma tokens_head (j : JSON) :
  ∃ t rest, tokens j = t :: rest ∧ t ≠ TCloseArr ∧ t ≠ TCloseObj.
Proof. destruct j; simpl; eauto 6. Qed.

(** The text determines the value: texts are prefix free. *)
Lemma tokens_inj_app (j : JSON) :
  ∀ j' r r', tokens j ++ r = tokens j' ++ r' → j = j' ∧ r = r'.
Proof.
  induction j as [ | b | n | s | items IH | ms IH ] using JSON_nested_ind;
    intros j' r r' E.
  1-4: destruct j'; simpl in E; by simplify_eq.
  - destruct j' as [ | | | | items' | ]; simpl in E; try discriminate.
    injection E as E.
    change (arr_tokens items ++ r = arr_tokens items' ++ r') in E.
    cut (items = items' ∧ r = r'); [by intros [-> ->]|].
    revert items' E.
    induction IH as [|x items Hx _ IHl]; intros [|y items'] E; simpl in E.
    + by simplify_eq.
    + destruct (tokens_head y) as (t & rest & Hy & Ht & _).
      rewrite Hy in E. simpl in E. by simplify_eq.
    + destruct (tokens_head x) as (t & rest & Hy & Ht & _).
      rewrite Hy in E. simpl in E. by simplify_eq.
    + rewrite <- !app_assoc in E.
      destruct (Hx _ _ _ E) as [-> E'].
      destruct (IHl _ E') as [-> ->]. done.
  - destruct j' as [ | | | | | ms' ]; simpl in E; try discriminate.
    injection E as E.
    change (obj_tokens ms ++ r = obj_tokens ms' ++ r') in E.
    cut (ms = ms' ∧ r = r'); [by intros [-> ->]|].
    revert ms' E.
    induction IH as [|[k v] ms Hv _ IHl]; intros [|[k' v'] ms'] E; simpl in E.
    + by simplify_eq.
    + by simplify_eq.
    + by simplify_eq.
    + injection E as -> E. rewrite <- !app_assoc in E. simpl in Hv.
      destruct (Hv _ _ _ E) as [-> E'].
      destruct (IHl _ E') as [-> ->]. done.
Qed.

Lemma tokens_inj (j j' : JSON) : tokens j = tokens j' → j = j'.
Proof.
  intros E. apply (tokens_inj_app j j' [] []). by rewrite E.
Qed.

Lemma profile_json_inj (p q : Profile) : profile_json p = profile_json q → p = q.
Proof. destruct p, q. unfold profile_json. simpl. congruence. Qed.

(** Two texts are equal exactly when both are absent or both come from the
    same profile value. *)
Lemma JSON_stringify_inj (x y : option Profile) :
  JSON_stringify x = JSON_stringify y ↔ x = y.
Proof.
  split; [|by intros ->].
  destruct x as [p|], y as [q|]; intros E; try discriminate E; [|done].
  change (Some (tokens (profile_json p)) = Some (tokens (profile_json q))) in E.
  f_equal. apply profile_json_inj, tokens_inj. congruence.
Qed.

(** ** Running the state transformers *)

Ltac run :=
  cbv [bind ret get_world get_this modify_world modify_this emit
       set_customProfiles set_defaultProfiles set_settings
       set_currentProfileEdit set_currentProfileEditIndex
       new_profile new_array new_settings
       read_profile read_array read_settings
       write_profile write_array write_settings
       assign_name assign_stateMap assign_slot
       JSON_parse_profile JSON_parse_slot
       copyConfig_profile copyConfig_slot copyConfig_settings
       config_writeProfiles config_writeSettings config_getSettingsNoThrow
       sendSync execFile updateConfigData
       getSettings getCustomProfiles getDefaultProfiles getCurrentEditingProfile
       with_profile_objs with_array_objs with_settings_objs with_files
       profile_at array_at settings_at slot_value];
  cbn [fst snd world this log profile_objs array_objs settings_objs
       dbus_customProfiles settings_file files
       defaultProfiles customProfiles settings
       currentProfileEdit currentProfileEditIndex].

(** ** Arrays *)

Lemma findIndex_from_spec {X : Type} (P : X → bool) (a : list X) (k : Z) :
  0 ≤ k →
  (findIndex_from P a k = -1 ∧ ∀ j e, a !! j = Some e → P e = false)
  ∨ (∃ i : nat, findIndex_from P a k = k + Z.of_nat i
       ∧ (∃ e, a !! i = Some e ∧ P e = true)
       ∧ ∀ j e, (j < i)%nat → a !! j = Some e → P e = false).
Proof.
  revert k. induction a as [|x a IH]; intros k Hk; simpl.
  - left. split; [done|]. intros j e. by rewrite lookup_nil.
  - destruct (P x) eqn:Px.
    + right. exists 0%nat. split; [lia|]. split; [by exists x|]. intros; lia.
    + destruct (IH (k + 1)) as [[E Hall]|(i & E & (e & He & Pe) & Hbefore)]; [lia|..].
      * left. split; [done|]. intros [|j] e; simpl; [naive_solver|apply Hall].
      * right. exists (S i). split; [lia|]. split; [by exists e|].
        intros [|j] e' Hj; simpl; [naive_solver|]. apply Hbefore. lia.
Qed.

Lemma name_is_value (w : World) (n : string) (e : option loc) :
  name_is w n e = true ↔ ∃ p, slot_value w e = Some p ∧ name p = n.
Proof.
  destruct e as [l|]; simpl.
  - rewrite bool_decide_eq_true. naive_solver.
  - naive_solver.
Qed.

Lemma array_value_lookup (w : World) (a : list (option loc)) (i : nat) :
  array_value w a !! i = slot_value w <$> a !! i.
Proof. unfold array_value. apply list_lookup_fmap. Qed.

(** [findIndex] by name answers [-1] exactly when no profile has the name,
    and a position exactly when the name resolves to it. *)
Lemma findIndex_not_named (w : World) (n : string) (a : list (option loc)) :
  Array_findIndex (name_is w n) a = -1 ↔ ¬ named n (array_value w a).
Proof.
  unfold Array_findIndex.
  destruct (findIndex_from_spec (name_is w n) a 0)
    as [[E Hall]|(i & E & (e & He & Pe) & Hbefore)]; [lia|..].
  - split; [|done]. intros _ (i & p & Hi & Hp).
    rewrite array_value_lookup in Hi.
    destruct (a !! i) as [e|] eqn:He; [|done]. simpl in Hi.
    specialize (Hall _ _ He).
    assert (name_is w n e = true) by (apply name_is_value; naive_solver).
    congruence.
  - split; [lia|]. intros Hno. exfalso. apply Hno.
    apply name_is_value in Pe as (p & Hp & Hn).
    exists i, p. rewrite array_value_lookup, He. simpl. by rewrite Hp.
Qed.

Lemma findIndex_resolves (w : World) (n : string) (a : list (option loc)) (i : nat) :
  Array_findIndex (name_is w n) a = Z.of_nat i ↔ resolves n (array_value w a) i.
Proof.
  unfold Array_findIndex, resolves.
  destruct (findIndex_from_spec (name_is w n) a 0)
    as [[E Hall]|(i' & E & (e & He & Pe) & Hbefore)]; [lia|..].
  - split; [lia|]. intros [(p & Hi & Hp) _]. exfalso.
    rewrite array_value_lookup in Hi.
    destruct (a !! i) as [e|] eqn:He; [|done]. simpl in Hi.
    specialize (Hall _ _ He).
    assert (name_is w n e = true) by (apply name_is_value; naive_solver).
    congruence.
  - assert (Hhere : ∃ p, array_value w a !! i' = Some (Some p) ∧ name p = n).
    { apply name_is_value in Pe as (p & Hp & Hn).
      exists p. rewrite array_value_lookup, He. simpl. by rewrite Hp. }
    assert (Hfirst : ∀ j p, (j < i')%nat →
              array_value w a !! j = Some (Some p) → name p ≠ n).
    { intros j p Hj Hl Hn. rewrite array_value_lookup in Hl.
      destruct (a !! j) as [e'|] eqn:He'; [|done]. simpl in Hl.
      specialize (Hbefore _ _ Hj He').
      assert (name_is w n e' = true) by (apply name_is_value; naive_solver).
      congruence. }
    split.
    + intros Ei. assert (i = i') as -> by lia. done.
    + intros [(p & Hi & Hp) Hfi].
      destruct (Nat.lt_trichotomy i i') as [Hlt|[->|Hgt]]; [|lia|].
      * exfalso. by apply (Hfirst _ _ Hlt Hi).
      * exfalso. destruct Hhere as (q & Hq & Hqn). by apply (Hfi _ _ Hgt Hq).
Qed.

(** The position found for a name holds a profile of that name. *)
Lemma findIndex_named (w : World) (n : string) (a : list (option loc)) :
  named n (array_value w a) →
  ∃ (i : nat) (l : loc),
    Array_findIndex (name_is w n) a = Z.of_nat i
    ∧ a !! i = Some (Some l)
    ∧ name (profile_at w l) = n
    ∧ js_index a (Some (Z.of_nat i)) = Some l.
Proof.
  intros Hn. unfold Array_findIndex.
  destruct (findIndex_from_spec (name_is w n) a 0)
    as [[E Hall]|(i & E & (e & He & Pe) & Hbefore)]; [lia|..].
  - exfalso. by apply (findIndex_not_named w n a).
  - destruct e as [l|]; [|done]. simpl in Pe. apply bool_decide_eq_true in Pe.
    exists i, l. split; [lia|]. split; [done|]. split; [done|].
    simpl. rewrite bool_decide_eq_true_2 by lia.
    by rewrite Nat2Z.id, He.
Qed.

Lemma resolves_named (n : string) (vs : list (option Profile)) (i : nat) :
  resolves n vs i → named n vs.
Proof. intros [(p & Hp & Hn) _]. by exists i, p. Qed.

Lemma resolves_lt_length (n : string) (vs : list (option Profile)) (i : nat) :
  resolves n vs i → (i < length vs)%nat.
Proof. intros [(p & Hp & Hn) _]. by eapply lookup_lt_Some. Qed.

(** [findIndex] answers [-1] or a position inside the array. *)
Lemma findIndex_range {X : Type} (P : X → bool) (a : list X) :
  Array_findIndex P a = -1
  ∨ ∃ i : nat, Array_findIndex P a = Z.of_nat i ∧ (i < length a)%nat.
Proof.
  unfold Array_findIndex.
  destruct (findIndex_from_spec P a 0)
    as [[E Hall]|(i & E & (e & He & Pe) & Hbefore)]; [lia|by left|].
  right. exists i. split; [lia|]. by eapply lookup_lt_Some.
Qed.

(** Assigning to a slot and reading the values commute. *)
Lemma array_value_js_assign (w : World) (a : list (option loc)) (i : option Z)
    (x : option loc) :
  array_value w (js_assign a i x) = js_assign (array_value w a) i (slot_value w x).
Proof.
  unfold js_assign, array_value. destruct i as [z|]; [|done].
  case_bool_decide; [|done]. rewrite length_fmap.
  case_bool_decide.
  - by rewrite list_fmap_insert.
  - rewrite !fmap_app, fmap_replicate. done.
Qed.

(** Inside the array, assigning to a slot replaces it. *)
Lemma js_assign_in_bounds {X : Type} (a : list (option X)) (i : nat) (x : option X) :
  (i < length a)%nat → js_assign a (Some (Z.of_nat i)) x = <[i := x]> a.
Proof.
  intros Hi. unfold js_assign.
  rewrite bool_decide_eq_true_2 by lia. rewrite Nat2Z.id.
  by rewrite bool_decide_eq_true_2.
Qed.

(** [willOverwrite] on the three positions [writeProfile] looks up: the
    current name resolves to a custom position, no built-in profile has
    the new name, and the new name resolves to no other custom position. *)
Lemma willOverwrite_spec (w : World) (n pname : string)
    (customs defaults : list (option loc)) :
  willOverwrite (Array_findIndex (name_is w n) customs)
                (Array_findIndex (name_is w pname) defaults)
                (Array_findIndex (name_is w pname) customs) = true
  ↔ ∃ i, Array_findIndex (name_is w n) customs = Z.of_nat i
         ∧ resolves n (array_value w customs) i
         ∧ ¬ named pname (array_value w defaults)
         ∧ ∀ j, resolves pname (array_value w customs) j → j = i.
Proof.
  unfold willOverwrite.
  rewrite !andb_true_iff, orb_true_iff, negb_true_iff.
  rewrite bool_decide_eq_false, !bool_decide_eq_true.
  rewrite (findIndex_not_named w pname defaults). split.
  - intros [[Hidx Hdef] Hcus].
    destruct (findIndex_range (name_is w n) customs) as [E|(i & E & Hi)]; [done|].
    exists i. split; [done|]. split; [by apply findIndex_resolves|].
    split; [done|]. intros j Hj. apply findIndex_resolves in Hj.
    destruct Hcus as [Hcus|Hcus]; lia.
  - intros (i & E & Hres & Hdef & Hcus). split; [split; [lia|done]|].
    destruct (findIndex_range (name_is w pname) customs) as [E'|(j & E' & Hj)];
      [by left|right].
    rewrite E', E. f_equal. apply Hcus. by apply findIndex_resolves.
Qed.

Lemma array_value_app (w : World) (a b : list (option loc)) :
  array_value w (a ++ b) = array_value w a ++ array_value w b.
Proof. unfold array_value. apply fmap_app. Qed.

Lemma array_value_singleton (w : World) (l : loc) :
  array_value w [Some l] = [Some (profile_at w l)].
Proof. reflexivity. Qed.

(** [find] by name and the first profile of that name. *)
Lemma Array_find_value (w : World) (n : string) (a : list (option loc)) :
  slot_value w (Array_find (name_is w n) a) = first_named n (array_value w a).
Proof.
  induction a as [|[l|] a IH]; simpl; [done| |done].
  case_bool_decide; [done|exact IH].
Qed.

Lemma first_named_None (n : string) (vs : list (option Profile)) :
  first_named n vs = None ↔ ¬ named n vs.
Proof.
  induction vs as [|[p|] vs IH]; simpl.
  - split; [|done]. intros _ (i & p & Hi & _). by rewrite lookup_nil in Hi.
  - case_bool_decide as Hp.
    + split; [done|]. intros Hno. exfalso. apply Hno. by exists 0%nat, p.
    + rewrite IH. split.
      * intros Hno (i & q & Hi & Hq). destruct i as [|i]; simpl in Hi.
        -- by simplify_eq.
        -- apply Hno. by exists i, q.
      * intros Hno (i & q & Hi & Hq). apply Hno. by exists (S i), q.
  - rewrite IH. split.
    + intros Hno (i & q & Hi & Hq). destruct i as [|i]; simpl in Hi; [done|].
      apply Hno. by exists i, q.
    + intros Hno (i & q & Hi & Hq). apply Hno. by exists (S i), q.
Qed.

Lemma first_named_name (n : string) (vs : list (option Profile)) (p : Profile) :
  first_named n vs = Some p → name p = n.
Proof.
  induction vs as [|[q|] vs IH]; simpl; [done| |done].
  case_bool_decide; [|done]. by intros [= <-].
Qed.

(** The values of an array, and the search in it, depend on the objects
    its slots point to only. *)
Lemma array_value_ext (w w' : World) (a : list (option loc)) :
  (∀ l, Some l ∈ a → profile_at w' l = profile_at w l) →
  array_value w' a = array_value w a.
Proof.
  intros Hsame. unfold array_value. apply list_fmap_ext.
  intros i [l|] Hi; [|done]. simpl. f_equal. apply Hsame.
  by eapply list_elem_of_lookup_2.
Qed.

Lemma Array_find_ext (w w' : World) (n : string) (a : list (option loc)) :
  (∀ l, Some l ∈ a → profile_at w' l = profile_at w l) →
  Array_find (name_is w' n) a = Array_find (name_is w n) a.
Proof.
  induction a as [|e a IH]; intros Hsame; [done|]. simpl.
  assert (name_is w' n e = name_is w n e) as ->.
  { destruct e as [l|]; [|done]. simpl. rewrite Hsame; [done|]. by left. }
  rewrite IH; [done|]. intros l Hl. apply Hsame. by right.
Qed.

Lemma Array_find_elem {X : Type} (P : option X → bool) (a : list (option X)) (x : X) :
  Array_find P a = Some x → Some x ∈ a.
Proof.
  induction a as [|e a IH]; simpl; [done|].
  destruct (P e).
  - intros ->. by left.
  - intros H. right. by apply IH.
Qed.

Lemma live_slots_elem (w : World) (a : list (option loc)) (l : loc) :
  forallb (live_slot w) a = true → Some l ∈ a → l ∈ dom (profile_objs w).
Proof.
  rewrite forallb_forall. intros Hall Hl.
  apply list_elem_of_In in Hl. specialize (Hall _ Hl).
  by apply bool_decide_eq_true in Hall.
Qed.

Lemma lookup_total_subseteq {A : Type} `{!Inhabited A} (m m' : gmap loc A) (l : loc) :
  m ⊆ m' → l ∈ dom m → m' !!! l = m !!! l.
Proof.
  intros Hsub [x Hx]%elem_of_dom.
  rewrite (lookup_total_correct _ _ _ Hx).
  apply lookup_total_correct. by eapply lookup_weaken.
Qed.

Lemma lookup_total_insert_live {A : Type} `{!Inhabited A} (m : gmap loc A)
    (l k : loc) (x : A) :
  l ∈ dom m → k ∉ dom m → <[k := x]> m !!! l = m !!! l.
Proof. intros Hl Hk. apply lookup_total_insert_ne. set_solver. Qed.

(** ** Copies *)

Lemma JSON_parse_slots_run (vs : list (option Profile)) (w : World)
    (t : ConfigService) (lg : list Event) :
  ∃ m' copies,
    JSON_parse_slots vs (mkState w t lg)
      = (copies, mkState (with_profile_objs (λ _, m') w) t lg)
    ∧ profile_objs w ⊆ m'
    ∧ ∀ ar st d sf fl, array_value (mkWorld m' ar st d sf fl) copies = vs.
Proof.
  revert w. induction vs as [|v vs IH]; intros w.
  - exists (profile_objs w), []. destruct w. done.
  - destruct v as [p|]; simpl; run.
    + set (l := fresh (dom (profile_objs w))).
      destruct (IH (with_profile_objs (insert l p) w)) as (m' & copies & E & Hsub & Hval).
      unfold with_profile_objs in E. cbn in E. rewrite E. run.
      assert (profile_objs w !! l = None) as Hl
        by apply not_elem_of_dom, is_fresh.
      exists m', (Some l :: copies). split; [done|]. split.
      * etrans; [|exact Hsub]. simpl. by apply insert_subseteq.
      * intros ar st d sf fl. unfold array_value. simpl. f_equal.
        -- unfold profile_at. simpl. f_equal.
           apply lookup_total_correct.
           eapply lookup_weaken; [|exact Hsub]. simpl. apply lookup_insert_eq.
        -- apply Hval.
    + destruct (IH w) as (m' & copies & E & Hsub & Hval).
      rewrite E. exists m', (None :: copies). split; [done|]. split; [done|].
      intros ar st d sf fl. unfold array_value. simpl. f_equal. apply Hval.
Qed.

Lemma copyConfig_profiles_run (a : loc) (w : World) (t : ConfigService)
    (lg : list Event) :
  ∃ m' copies,
    copyConfig_profiles a (mkState w t lg)
      = (fresh (dom (array_objs w)),
         mkState (mkWorld m' (<[fresh (dom (array_objs w)) := copies]> (array_objs w))
                    (settings_objs w) (dbus_customProfiles w) (settings_file w)
                    (files w)) t lg)
    ∧ profile_objs w ⊆ m'
    ∧ ∀ ar st d sf fl,
        array_value (mkWorld m' ar st d sf fl) copies
        = array_value w (array_at w a).
Proof.
  unfold copyConfig_profiles. run.
  destruct (JSON_parse_slots_run (array_value w (array_objs w !!! a)) w t lg)
    as (m' & copies & E & Hsub & Hval).
  rewrite E. run. by exists m', copies.
Qed.

Lemma assign_states_run (newSettings : loc) (states : list string) (profile : loc)
    (w : World) (t : ConfigService) (lg : list Event) :
  ∃ st',
    assign_states newSettings states profile (mkState w t lg)
      = (tt, mkState (with_settings_objs (λ _, st') w) t lg)
    ∧ st' !!! newSettings
      = remapped (Some states) (name (profile_at w profile))
          (settings_at w newSettings).
Proof.
  revert w. induction states as [|stateId states IH]; intros w.
  - exists (settings_objs w). destruct w. done.
  - simpl. run.
    destruct (IH (with_settings_objs
                    (insert newSettings
                       (set_stateMap stateId (name (profile_objs w !!! profile))
                          (settings_objs w !!! newSettings))) w))
      as (st' & E & Hst').
    unfold with_settings_objs in E. cbn in E. rewrite E. run.
    exists st'. split; [done|]. rewrite Hst'. unfold remapped. simpl.
    unfold settings_at, profile_at. cbn. by rewrite lookup_total_insert_eq.
Qed.

(** What [remapped] does to each state. *)
Lemma remapped_lookup (states : option (list string)) (profileName : string)
    (s : Settings) (k : string) :
  stateMap (remapped states profileName s) !! k
  = if bool_decide (k ∈ default [] states) then Some profileName
    else stateMap s !! k.
Proof.
  unfold remapped. generalize (default [] states). clear states.
  intros l. revert s. induction l as [|x l IH]; intros s; simpl.
  - done.
  - rewrite IH. destruct (decide (k ∈ l)) as [Hin|Hout].
    + rewrite (bool_decide_eq_true_2 (k ∈ l)) by done.
      rewrite (bool_decide_eq_true_2 (k ∈ x :: l)) by set_solver. done.
    + rewrite (bool_decide_eq_false_2 (k ∈ l)) by done.
      unfold set_stateMap. cbn [stateMap].
      destruct (decide (x = k)) as [->|Hne].
      * rewrite lookup_insert_eq.
        rewrite (bool_decide_eq_true_2 (k ∈ k :: l)) by set_solver. done.
      * rewrite lookup_insert_ne by done.
        rewrite (bool_decide_eq_false_2 (k ∈ x :: l)) by set_solver. done.
Qed.

Lemma remapped_globals (states : option (list string)) (profileName : string)
    (s : Settings) :
  globals (remapped states profileName s) = globals s.
Proof.
  unfold remapped. generalize (default [] states). clear states.
  intros l. revert s. induction l as [|x l IH]; intros s; simpl; [done|].
  by rewrite IH.
Qed.

Section Properties.

Variable env : Collaborators.

(** ** Staging and escalation *)

Lemma pkexecWriteConfigAsync_run (settings customProfiles : loc) (w : World)
    (t : ConfigService) (lg : list Event) :
  let ps := array_value w (array_at w customProfiles) in
  let ss := settings_at w settings in
  let cmd := ("pkexec " +:+ tccdExec env +:+ " --new_profiles " +:+ "/tmp/tmptccprofiles"
              +:+ " --new_settings " +:+ "/tmp/tmptccsettings")%string in
  let w1 := with_files (insert "/tmp/tmptccsettings"%string (SettingsData ss))
              (with_files (insert "/tmp/tmptccprofiles"%string (ProfilesData ps)) w) in
  pkexecWriteConfigAsync env settings customProfiles (mkState w t lg)
  = ((utils_execFile env cmd w1).1,
     mkState (utils_execFile env cmd w1).2 t
       (lg ++ [config_writeProfiles_call ps "/tmp/tmptccprofiles";
               config_writeSettings_call ss "/tmp/tmptccsettings";
               utils_execFile_call cmd])).
Proof.
  unfold pkexecWriteConfigAsync. run.
  destruct (utils_execFile env _ _) as [fulfilled w2]. run.
  by rewrite <- !app_assoc.
Qed.

Lemma pkexecWriteCustomProfilesAsync_run (customProfiles : loc) (w : World)
    (t : ConfigService) (lg : list Event) :
  let ps := array_value w (array_at w customProfiles) in
  let cmd := ("pkexec " +:+ tccdExec env +:+ " --new_profiles "
              +:+ "/tmp/tmptccprofiles")%string in
  let w1 := with_files (insert "/tmp/tmptccprofiles"%string (ProfilesData ps)) w in
  pkexecWriteCustomProfilesAsync env customProfiles (mkState w t lg)
  = ((utils_execFile env cmd w1).1,
     mkState (utils_execFile env cmd w1).2 t
       (lg ++ [config_writeProfiles_call ps "/tmp/tmptccprofiles";
               utils_execFile_call cmd])).
Proof.
  unfold pkexecWriteCustomProfilesAsync. run.
  destruct (utils_execFile env _ _) as [fulfilled w2]. run.
  by rewrite <- !app_assoc.
Qed.

Lemma pkexecWriteCustomProfiles_run (customProfiles : loc) (w : World)
    (t : ConfigService) (lg : list Event) :
  let ps := array_value w (array_at w customProfiles) in
  let cmd := ("pkexec " +:+ tccdExec env +:+ " --new_profiles "
              +:+ "/tmp/tmptccprofiles")%string in
  let w1 := with_files (insert "/tmp/tmptccprofiles"%string (ProfilesData ps)) w in
  let answer := ipcRenderer_sendSync env "exec-cmd-sync" cmd w1 in
  pkexecWriteCustomProfiles env customProfiles (mkState w t lg)
  = (bool_decide (answer.1 = None),
     mkState answer.2 t
       (lg ++ [config_writeProfiles_call ps "/tmp/tmptccprofiles";
               ipcRenderer_sendSync_call "exec-cmd-sync" cmd])).
Proof.
  unfold pkexecWriteCustomProfiles. run.
  destruct (ipcRenderer_sendSync env _ _ _) as [result_error w2]. run.
  by rewrite <- !app_assoc.
Qed.

(** ** Set active profile for a state *)

(** C8.  [setActiveProfile(profileName, stateId)] stages the current
    settings with [stateMap[stateId]] set to [profileName], and nothing
    else; it calls the helper once, and whatever the helper answers it
    then refreshes the mirror from the D-Bus value and the settings file.
    The method returns nothing. *)
Theorem setActiveProfile_stages_and_refreshes (profileName stateId : string) (σ : State) :
  let staged := set_stateMap stateId profileName (settings_value σ) in
  let cmd := ("pkexec " +:+ tccdExec env +:+ " --new_settings " +:+ "/tmp/tmptccsettings")%string in
  let σ' := (setActiveProfile env profileName stateId σ).2 in
  stateMap staged = <[stateId := profileName]> (stateMap (settings_value σ))
  ∧ globals staged = globals (settings_value σ)
  ∧ ∃ w1,
      files w1 !! "/tmp/tmptccsettings"%string = Some (SettingsData staged)
      ∧ let answer := ipcRenderer_sendSync env "exec-cmd-sync" cmd w1 in
        log σ' = log σ ++ [config_writeSettings_call staged "/tmp/tmptccsettings";
                           ipcRenderer_sendSync_call "exec-cmd-sync" cmd;
                           settingsSubject_next (settings (this σ'))]
        ∧ customProfiles (this σ') = dbus_customProfiles answer.2
        ∧ settings_value σ' = settings_file answer.2.
Proof.
  destruct σ as [w t lg]. unfold settings_value. cbn zeta.
  split; [reflexivity|]. split; [reflexivity|].
  unfold setActiveProfile. run. rewrite !lookup_total_insert_eq.
  match goal with
  | |- context [ipcRenderer_sendSync env _ _ ?w1] => exists w1
  end.
  split; [apply lookup_insert_eq|].
  destruct (ipcRenderer_sendSync env _ _ _) as [result_error w2]. run.
  rewrite lookup_total_insert_eq, <- !app_assoc. done.
Qed.

(** ** Write profile *)

(** The one run of [writeProfile] the properties below read off. *)
Lemma writeProfile_run (currentProfileName : string) (profile : loc)
    (states : option (list string)) (σ : State) :
  profile ∈ dom (profile_objs (world σ)) →
  let new := profile_at (world σ) profile in
  let customs := array_at (world σ) (customProfiles (this σ)) in
  let defaults := array_at (world σ) (defaultProfiles (this σ)) in
  let profileIndex := Array_findIndex (name_is (world σ) currentProfileName) customs in
  let will :=
    willOverwrite profileIndex
      (Array_findIndex (name_is (world σ) (name new)) defaults)
      (Array_findIndex (name_is (world σ) (name new)) customs) in
  let staged_profiles :=
    if will then js_assign (customs_value σ) (Some profileIndex) (Some new)
    else customs_value σ in
  let staged_settings := remapped states (name new) (settings_value σ) in
  let cmd := ("pkexec " +:+ tccdExec env +:+ " --new_profiles " +:+ "/tmp/tmptccprofiles"
              +:+ " --new_settings " +:+ "/tmp/tmptccsettings")%string in
  ∃ w1,
    files w1 !! "/tmp/tmptccprofiles"%string = Some (ProfilesData staged_profiles)
    ∧ files w1 !! "/tmp/tmptccsettings"%string = Some (SettingsData staged_settings)
    ∧ let answer := utils_execFile env cmd w1 in
      let r := writeProfile env currentProfileName profile states σ in
      r.1 = answer.1
      ∧ log r.2
        = log σ ++ [config_writeProfiles_call staged_profiles "/tmp/tmptccprofiles";
                    config_writeSettings_call staged_settings "/tmp/tmptccsettings";
                    utils_execFile_call cmd]
                ++ (if answer.1 then [settingsSubject_next (settings (this r.2))] else [])
      ∧ if answer.1
        then customProfiles (this r.2) = dbus_customProfiles answer.2
             ∧ settings_value r.2 = settings_file answer.2
        else this r.2 = this σ.
Proof.
  intros Hlive. destruct σ as [w t lg]. cbn [world this log] in *.
  unfold customs_value, settings_value. cbn [world this log].
  cbn zeta. unfold writeProfile. run.
  destruct (copyConfig_profiles_run (customProfiles t) w t lg)
    as (m' & copies & E & Hsub & Hval).
  rewrite E. run. clear E. unfold willOverwrite.
  set (profileIndex := Array_findIndex (name_is w currentProfileName) _).
  set (will := negb _ && _ && _).
  assert (Hnew : m' !!! profile = profile_objs w !!! profile).
  { apply elem_of_dom in Hlive as [p Hp].
    rewrite (lookup_total_correct _ _ _ Hp).
    apply lookup_total_correct. by eapply lookup_weaken. }
  destruct will; run; rewrite ?lookup_total_insert_eq;
  (destruct states as [sts|]; run;
   [ match goal with
     | |- context [assign_states ?l ?s ?p (mkState ?w0 ?t0 ?lg0)] =>
         destruct (assign_states_run l s p w0 t0 lg0) as (st' & E & Hst');
         rewrite E; clear E; run
     end | ]);
  rewrite pkexecWriteConfigAsync_run; cbn zeta; run;
  rewrite ?lookup_total_insert_eq, ?array_value_js_assign;
  rewrite Hval;
  try (rewrite Hst'; clear Hst'; unfold settings_at, profile_at);
  run; rewrite ?lookup_total_insert_eq, ?Hnew;
  match goal with
  | |- context [utils_execFile env ?c ?w1] =>
      exists w1; destruct (utils_execFile env c w1) as [[] w2]
  end; run;
  (split; [by rewrite lookup_insert_ne, lookup_insert_eq|]);
  (split; [by rewrite lookup_insert_eq|]);
  rewrite ?lookup_total_insert_eq, ?app_nil_r, <- ?app_assoc;
  repeat split; reflexivity.
Qed.

(** With names that are unique in the collection, as the data model
    asks, a name resolves to the one position that carries it. *)
Lemma resolves_iff_named_at (n : string) (vs : list (option Profile)) (i : nat) :
  unique_names vs → resolves n vs i ↔ named_at n vs i.
Proof.
  intros Huniq. split; [by intros [H _]|].
  intros (p & Hi & Hp). split; [by exists p|].
  intros j q Hj Hq Hn. assert (j = i) by (eapply Huniq; eauto; congruence). lia.
Qed.

(** C2.  [writeProfile] stages the custom collection with the profile
    at the position of [currentProfileName] replaced by [profile] when
    [currentProfileName] resolves to a custom position, no built-in
    profile is named [profile.name], and [profile.name] resolves to no
    custom position other than that one; in every other case it stages
    the custom collection as it is.  With unique names in the custom
    collection, "resolves to" is "is the position of": the overwrite
    happens exactly when every custom profile named [profile.name] is the
    one being edited. *)
Theorem writeProfile_overwrites_iff_permitted (currentProfileName : string)
    (profile : loc) (states : option (list string)) (σ : State) :
  profile ∈ dom (profile_objs (world σ)) →
  let new := profile_at (world σ) profile in
  let r := writeProfile env currentProfileName profile states σ in
  ∃ staged rest,
    log r.2 = log σ ++ config_writeProfiles_call staged "/tmp/tmptccprofiles" :: rest
    ∧ (∀ i, resolves currentProfileName (customs_value σ) i →
            ¬ named (name new) (defaults_value σ) →
            (∀ j, resolves (name new) (customs_value σ) j → j = i) →
            staged = <[i := Some new]> (customs_value σ))
    ∧ (¬ (∃ i, resolves currentProfileName (customs_value σ) i
               ∧ ¬ named (name new) (defaults_value σ)
               ∧ ∀ j, resolves (name new) (customs_value σ) j → j = i) →
       staged = customs_value σ)
    ∧ (unique_names (customs_value σ) →
       (∀ i, named_at currentProfileName (customs_value σ) i →
             ¬ named (name new) (defaults_value σ) →
             (∀ j, named_at (name new) (customs_value σ) j → j = i) →
             staged = <[i := Some new]> (customs_value σ))
       ∧ (¬ (∃ i, named_at currentProfileName (customs_value σ) i
                  ∧ ¬ named (name new) (defaults_value σ)
                  ∧ ∀ j, named_at (name new) (customs_value σ) j → j = i) →
          staged = customs_value σ)).
Proof.
  intros Hlive new r.
  destruct (writeProfile_run currentProfileName profile states σ Hlive)
    as (w1 & _ & _ & _ & Hlog & _).
  fold new r in Hlog. cbv zeta in Hlog.
  eexists _, _. split; [exact Hlog|]. clear Hlog.
  assert (Hyes : ∀ i, resolves currentProfileName (customs_value σ) i →
            ¬ named (name new) (defaults_value σ) →
            (∀ j, resolves (name new) (customs_value σ) j → j = i) →
            (if willOverwrite
                  (Array_findIndex (name_is (world σ) currentProfileName)
                     (array_at (world σ) (customProfiles (this σ))))
                  (Array_findIndex (name_is (world σ) (name new))
                     (array_at (world σ) (defaultProfiles (this σ))))
                  (Array_findIndex (name_is (world σ) (name new))
                     (array_at (world σ) (customProfiles (this σ))))
             then js_assign (customs_value σ)
                    (Some (Array_findIndex (name_is (world σ) currentProfileName)
                             (array_at (world σ) (customProfiles (this σ)))))
                    (Some new)
             else customs_value σ)
            = <[i := Some new]> (customs_value σ)).
  { unfold customs_value, defaults_value. intros i Hres Hdef Hcus.
    rewrite (proj2 (willOverwrite_spec _ _ _ _ _)).
    - apply findIndex_resolves in Hres as Ei. rewrite Ei.
      apply js_assign_in_bounds. by eapply resolves_lt_length.
    - exists i. split; [by apply findIndex_resolves|done]. }
  assert (Hno : ¬ (∃ i, resolves currentProfileName (customs_value σ) i
               ∧ ¬ named (name new) (defaults_value σ)
               ∧ ∀ j, resolves (name new) (customs_value σ) j → j = i) →
            (if willOverwrite
                  (Array_findIndex (name_is (world σ) currentProfileName)
                     (array_at (world σ) (customProfiles (this σ))))
                  (Array_findIndex (name_is (world σ) (name new))
                     (array_at (world σ) (defaultProfiles (this σ))))
                  (Array_findIndex (name_is (world σ) (name new))
                     (array_at (world σ) (customProfiles (this σ))))
             then js_assign (customs_value σ)
                    (Some (Array_findIndex (name_is (world σ) currentProfileName)
                             (array_at (world σ) (customProfiles (this σ)))))
                    (Some new)
             else customs_value σ)
            = customs_value σ).
  { unfold customs_value, defaults_value. intros Hno.
    destruct (willOverwrite _ _ _) eqn:Hwill; [|done].
    exfalso. apply Hno. apply willOverwrite_spec in Hwill as (i & _ & H).
    by exists i. }
  split; [exact Hyes|]. split; [exact Hno|].
  intros Huniq. split.
  - intros i Hi Hdef Hcus.
    apply Hyes; [by apply (resolves_iff_named_at _ _ _ Huniq)|done|].
    intros j [Hj _]. by apply Hcus.
  - intros Hnone. apply Hno. intros (i & [Hi _] & Hdef & Hcus). apply Hnone.
    exists i. split; [done|]. split; [done|].
    intros j Hj. apply Hcus. by apply (resolves_iff_named_at _ _ _ Huniq).
Qed.



(** C9.  When [currentProfileName] names no custom profile,
    [writeProfile] reports no failure of its own: it stages the custom
    collection as it is and the settings with every listed state mapped
    to [profile.name], calls the helper, and returns what the helper
    answers. *)
Theorem writeProfile_unknown_current_name (currentProfileName : string)
    (profile : loc) (states : option (list string)) (σ : State) :
  profile ∈ dom (profile_objs (world σ)) →
  ¬ named currentProfileName (customs_value σ) →
  let pname := name (profile_at (world σ) profile) in
  let staged_settings := remapped states pname (settings_value σ) in
  let cmd := ("pkexec " +:+ tccdExec env +:+ " --new_profiles " +:+ "/tmp/tmptccprofiles"
              +:+ " --new_settings " +:+ "/tmp/tmptccsettings")%string in
  (∀ k, stateMap staged_settings !! k
        = if bool_decide (k ∈ default [] states) then Some pname
          else stateMap (settings_value σ) !! k)
  ∧ globals staged_settings = globals (settings_value σ)
  ∧ ∃ w1,
      files w1 !! "/tmp/tmptccprofiles"%string = Some (ProfilesData (customs_value σ))
      ∧ files w1 !! "/tmp/tmptccsettings"%string = Some (SettingsData staged_settings)
      ∧ let answer := utils_execFile env cmd w1 in
        let r := writeProfile env currentProfileName profile states σ in
        r.1 = answer.1
        ∧ log r.2
          = log σ ++ [config_writeProfiles_call (customs_value σ) "/tmp/tmptccprofiles";
                      config_writeSettings_call staged_settings "/tmp/tmptccsettings";
                      utils_execFile_call cmd]
                  ++ (if answer.1 then [settingsSubject_next (settings (this r.2))]
                      else []).
Proof.
  intros Hlive Hno pname staged_settings cmd.
  split; [intros k; apply remapped_lookup|].
  split; [apply remapped_globals|].
  destruct (writeProfile_run currentProfileName profile states σ Hlive)
    as (w1 & Hfile & Hfile' & Hres & Hlog & _).
  fold pname staged_settings cmd in Hfile, Hfile', Hres, Hlog.
  cbv zeta in Hres, Hlog.
  assert (willOverwrite
            (Array_findIndex (name_is (world σ) currentProfileName)
               (array_at (world σ) (customProfiles (this σ))))
            (Array_findIndex (name_is (world σ) pname)
               (array_at (world σ) (defaultProfiles (this σ))))
            (Array_findIndex (name_is (world σ) pname)
               (array_at (world σ) (customProfiles (this σ)))) = false) as Hwill.
  { apply not_true_is_false. intros (i & _ & Hi & _)%willOverwrite_spec.
    apply Hno. by eapply resolves_named. }
  rewrite Hwill in Hfile, Hlog.
  exists w1. split; [exact Hfile|]. split; [exact Hfile'|].
  cbv zeta. split; [exact Hres|exact Hlog].
Qed.

(** ** Lookup by name and copy *)

Lemma getProfileByName_run (n : string) (w : World) (t : ConfigService)
    (lg : list Event) :
  let all := array_at w (defaultProfiles t) ++ array_at w (customProfiles t) in
  let w1 := with_array_objs (insert (fresh (dom (array_objs w))) all) w in
  getProfileByName n (mkState w t lg)
  = match Array_find (name_is w n) all with
    | Some l =>
        (Some (fresh (dom (profile_objs w))),
         mkState (with_profile_objs
                    (insert (fresh (dom (profile_objs w))) (profile_at w l)) w1) t lg)
    | None => (None, mkState w1 t lg)
    end.
Proof.
  unfold getProfileByName, getAllProfiles. run.
  rewrite lookup_total_insert_eq.
  match goal with
  | |- context [Array_find (name_is ?w1 n) ?a] =>
      change (name_is w1 n) with (name_is w n)
  end.
  by destruct (Array_find _ _).
Qed.

Lemma getCustomProfileByName_run (n : string) (w : World) (t : ConfigService)
    (lg : list Event) :
  getCustomProfileByName n (mkState w t lg)
  = match Array_find (name_is w n) (array_at w (customProfiles t)) with
    | Some l =>
        (Some (fresh (dom (profile_objs w))),
         mkState (with_profile_objs
                    (insert (fresh (dom (profile_objs w))) (profile_at w l)) w) t lg)
    | None => (None, mkState w t lg)
    end.
Proof.
  unfold getCustomProfileByName. run.
  destruct (Array_find _ _); [done|]. by destruct w.
Qed.

(** C7.  [copyProfile(profileName, newProfileName)] returns [false],
    staging nothing and calling no helper, when no profile is named
    [profileName] or some profile, built-in or custom, is already named
    [newProfileName].  Otherwise it stages the custom collection with a
    copy of the profile found, renamed, appended; it calls the helper,
    refreshes the mirror exactly when the helper succeeds, and returns
    the helper's success. *)
Theorem copyProfile_guards_and_appends (profileName newProfileName : string)
    (σ : State) :
  well_formed σ = true →
  let all := defaults_value σ ++ customs_value σ in
  let r := copyProfile env profileName newProfileName σ in
  (¬ named profileName all ∨ named newProfileName all →
     r.1 = false ∧ log r.2 = log σ ∧ this r.2 = this σ
     ∧ files (world r.2) = files (world σ))
  ∧ (∀ p, first_named profileName all = Some p → ¬ named newProfileName all →
     let staged := customs_value σ ++ [Some (mkProfile newProfileName (members p))] in
     let cmd := ("pkexec " +:+ tccdExec env +:+ " --new_profiles "
                 +:+ "/tmp/tmptccprofiles")%string in
     ∃ w1,
       files w1 !! "/tmp/tmptccprofiles"%string = Some (ProfilesData staged)
       ∧ let answer := utils_execFile env cmd w1 in
         r.1 = answer.1
         ∧ log r.2
           = log σ ++ [config_writeProfiles_call staged "/tmp/tmptccprofiles";
                       utils_execFile_call cmd]
                   ++ (if answer.1 then [settingsSubject_next (settings (this r.2))]
                       else [])
         ∧ if answer.1
           then customProfiles (this r.2) = dbus_customProfiles answer.2
                ∧ settings_value r.2 = settings_file answer.2
           else this r.2 = this σ).
Proof.
  intros Hwf all r. subst all r.
  destruct σ as [w t lg]. unfold well_formed in Hwf. cbn [world this] in Hwf.
  apply andb_prop in Hwf as [Hwf HliveD]. apply andb_prop in Hwf as [Hwf HliveC].
  apply andb_prop in Hwf as [HC HD].
  apply bool_decide_eq_true in HC, HD.
  unfold defaults_value, customs_value, settings_value. cbn [world this log].
  rewrite <- array_value_app.
  set (all := array_at w (defaultProfiles t) ++ array_at w (customProfiles t)).
  assert (Hall : ∀ l, Some l ∈ all → l ∈ dom (profile_objs w)).
  { intros l [Hl|Hl]%elem_of_app.
    - by apply (live_slots_elem w (array_at w (defaultProfiles t))).
    - by apply (live_slots_elem w (array_at w (customProfiles t))). }
  unfold copyProfile. run. rewrite getProfileByName_run. fold all. cbv zeta.
  pose proof (Array_find_value w profileName all) as Hfirst.
  destruct (Array_find (name_is w profileName) all) as [l|] eqn:Hfind; simpl in Hfirst.
  2:{ split.
      - intros _. done.
      - intros p Hp. congruence. }
  assert (Hl : l ∈ dom (profile_objs w)) by (by eapply Hall, Array_find_elem).
  set (w1 := with_profile_objs _ _).
  assert (Harr1 : array_at w1 (defaultProfiles t) ++ array_at w1 (customProfiles t) = all).
  { unfold all, array_at, w1. cbn.
    rewrite !lookup_total_insert_live; [done|done|apply is_fresh|done|apply is_fresh]. }
  assert (Hprof1 : ∀ l', l' ∈ dom (profile_objs w) → profile_at w1 l' = profile_at w l').
  { intros l' Hl'. unfold profile_at, w1. cbn.
    apply lookup_total_insert_live; [done|apply is_fresh]. }
  rewrite getProfileByName_run. cbv zeta. rewrite Harr1.
  rewrite (Array_find_ext w w1) by (intros l' Hl'; by apply Hprof1, Hall).
  pose proof (Array_find_value w newProfileName all) as Hsecond.
  destruct (Array_find (name_is w newProfileName) all) as [l2|] eqn:Hfind2;
    simpl in Hsecond.
  { split.
    - intros _. done.
    - intros p _ Hno. apply first_named_None in Hno. congruence. }
  symmetry in Hsecond. apply first_named_None in Hsecond.
  split; [intros [Hno|Hyes]; [|done]; apply first_named_None in Hno; congruence|].
  intros p Hp _. rewrite <- Hfirst in Hp. injection Hp as <-.
  subst w1. clear Harr1 Hprof1. run.
  rewrite pkexecWriteCustomProfilesAsync_run. cbv zeta. run.
  set (c1 := fresh (dom (profile_objs w))).
  set (m1 := <[c1 := profile_objs w !!! l]> (profile_objs w)).
  set (c2 := fresh (dom m1)).
  set (A1 := fresh (dom (array_objs w))).
  set (ar1 := <[A1 := all]> (array_objs w)).
  set (A2 := fresh (dom ar1)).
  set (ar2 := <[A2 := all]> ar1).
  assert (Hc1 : c1 ∉ dom (profile_objs w)) by apply is_fresh.
  assert (Hc2 : c2 ∉ dom m1) by apply is_fresh.
  assert (Hm1 : dom m1 = {[c1]} ∪ dom (profile_objs w)) by apply dom_insert_L.
  assert (HA1 : A1 ∉ dom (array_objs w)) by apply is_fresh.
  assert (HA2 : A2 ∉ dom ar1) by apply is_fresh.
  assert (Har1 : dom ar1 = {[A1]} ∪ dom (array_objs w)) by apply dom_insert_L.
  assert (HC2 : ar2 !!! customProfiles t = array_objs w !!! customProfiles t).
  { unfold ar2, ar1. rewrite !lookup_total_insert_live; [done|done|done| |done].
    fold ar1. rewrite Har1. set_solver. }
  rewrite !lookup_total_insert_eq, HC2, array_value_app.
  match goal with
  | |- context [array_value (mkWorld ?a ?b ?c ?d ?e ?f)
                  (array_objs w !!! customProfiles t)] =>
      rewrite (array_value_ext w (mkWorld a b c d e f))
  end.
  2:{ intros l' Hl'. unfold profile_at. cbn [profile_objs].
      assert (l' ∈ dom (profile_objs w)) as Hl'w
        by (by apply (live_slots_elem w (array_at w (customProfiles t)))).
      assert (l' ≠ c1) by (intros ->; done).
      assert (l' ≠ c2) by (intros ->; apply Hc2; rewrite Hm1; set_solver).
      unfold m1. by rewrite !lookup_total_insert_ne. }
  rewrite array_value_singleton. unfold profile_at. cbn [profile_objs].
  rewrite lookup_total_insert_eq.
  replace (m1 !!! c1) with (profile_objs w !!! l)
    by (unfold m1; by rewrite lookup_total_insert_eq).
  match goal with
  | |- context [utils_execFile env ?c ?w1] =>
      exists w1; destruct (utils_execFile env c w1) as [[] w2]
  end; run;
  (split; [by rewrite lookup_insert_eq|]);
  rewrite ?lookup_total_insert_eq, ?app_nil_r, <- ?app_assoc;
  repeat split; reflexivity.
Qed.

(** ** What the accessors hand out *)

Lemma getAllProfiles_value_eq (σ : State) :
  getAllProfiles_value σ = defaults_value σ ++ customs_value σ.
Proof.
  destruct σ as [w t lg].
  unfold getAllProfiles_value, getAllProfiles, defaults_value, customs_value. run.
  rewrite lookup_total_insert_eq, !array_value_app. reflexivity.
Qed.

Lemma getProfileByName_value_eq (n : string) (σ : State) :
  getProfileByName_value n σ = first_named n (defaults_value σ ++ customs_value σ).
Proof.
  destruct σ as [w t lg].
  unfold getProfileByName_value, defaults_value, customs_value.
  rewrite getProfileByName_run. cbv zeta. cbn [world this].
  rewrite <- array_value_app, <- Array_find_value.
  destruct (Array_find _ _) as [l|]; [|done]. run.
  by rewrite lookup_total_insert_eq.
Qed.

Lemma getCustomProfileByName_value_eq (n : string) (σ : State) :
  getCustomProfileByName_value n σ = first_named n (customs_value σ).
Proof.
  destruct σ as [w t lg].
  unfold getCustomProfileByName_value, customs_value.
  rewrite getCustomProfileByName_run. cbn [world this].
  rewrite <- Array_find_value.
  destruct (Array_find _ _) as [l|]; [|done]. run.
  by rewrite lookup_total_insert_eq.
Qed.

(** Everything the service shows is read off the stored settings and the
    two stored collections. *)
Lemma same_observations_intro (σ σ' : State) :
  settings_value σ' = settings_value σ →
  defaults_value σ' = defaults_value σ →
  customs_value σ' = customs_value σ →
  same_observations σ σ'.
Proof.
  intros Hs Hd Hc. unfold same_observations.
  split; [done|]. split; [done|]. split; [done|].
  split; [by destruct σ, σ'|]. split; [by destruct σ, σ'|].
  split; [by rewrite !getAllProfiles_value_eq, Hd, Hc|].
  split; intros n.
  - by rewrite !getProfileByName_value_eq, Hd, Hc.
  - by rewrite !getCustomProfileByName_value_eq, Hc.
Qed.

(** Writing to a new profile object, with or without a new array beside
    it, leaves the stored settings and collections as they were. *)
Lemma fresh_profile_frame (w : World) (t : ConfigService) (lg : list Event)
    (v p' : Profile) (ar' : gmap loc (list (option loc))) :
  well_formed (mkState w t lg) = true →
  array_objs w ⊆ ar' →
  let c := fresh (dom (profile_objs w)) in
  same_observations (mkState w t lg)
    (mutate_profile c p'
       (mkState (mkWorld (<[c := v]> (profile_objs w)) ar' (settings_objs w)
                   (dbus_customProfiles w) (settings_file w) (files w)) t lg)).
Proof.
  intros Hwf Har c. unfold well_formed in Hwf. cbn [world this] in Hwf.
  apply andb_prop in Hwf as [Hwf HliveD]. apply andb_prop in Hwf as [Hwf HliveC].
  apply andb_prop in Hwf as [HC HD].
  apply bool_decide_eq_true in HC, HD.
  assert (Hc : c ∉ dom (profile_objs w)) by apply is_fresh.
  apply same_observations_intro.
  - done.
  - unfold defaults_value, mutate_profile. run.
    rewrite (lookup_total_subseteq _ _ _ Har HD).
    apply array_value_ext. intros l Hl. unfold profile_at. cbn [profile_objs].
    assert (l ∈ dom (profile_objs w))
      by (by apply (live_slots_elem w (array_at w (defaultProfiles t)))).
    assert (l ≠ c) by (intros ->; done).
    by rewrite !lookup_total_insert_ne.
  - unfold customs_value, mutate_profile. run.
    rewrite (lookup_total_subseteq _ _ _ Har HC).
    apply array_value_ext. intros l Hl. unfold profile_at. cbn [profile_objs].
    assert (l ∈ dom (profile_objs w))
      by (by apply (live_slots_elem w (array_at w (customProfiles t)))).
    assert (l ≠ c) by (intros ->; done).
    by rewrite !lookup_total_insert_ne.
Qed.

(** C1, as amended.  The two lookups by name hand out a copy: the object
    returned is a new one, and whatever a caller writes into it, the
    stored settings and collections keep their values and every accessor
    hands out what it handed out before.  The other accessors do not
    copy: [getSettings] and [getCustomProfiles] return the stored object
    itself, and the array [getAllProfiles] returns holds the stored
    profile objects. *)
Theorem lookups_by_name_hand_out_copies :
  (∀ n, copies_profile (getProfileByName n))
  ∧ (∀ n, copies_profile (getCustomProfileByName n))
  ∧ (∀ σ, (getSettings σ).1 = settings (this σ))
  ∧ (∀ σ, (getCustomProfiles σ).1 = customProfiles (this σ))
  ∧ (∀ σ, array_at (world (getAllProfiles σ).2) (getAllProfiles σ).1
          = array_at (world σ) (defaultProfiles (this σ))
            ++ array_at (world σ) (customProfiles (this σ))).
Proof.
  split; [|split; [|split; [|split]]].
  - intros n [w t lg] c p' Hwf Hc.
    rewrite getProfileByName_run in Hc |- *. cbv zeta in Hc |- *.
    destruct (Array_find _ _) as [l|]; [|done].
    cbn [fst snd] in Hc |- *. injection Hc as <-.
    apply (fresh_profile_frame w t lg (profile_at w l) p'); [done|].
    apply insert_subseteq, not_elem_of_dom, is_fresh.
  - intros n [w t lg] c p' Hwf Hc.
    rewrite getCustomProfileByName_run in Hc |- *.
    destruct (Array_find _ _) as [l|]; [|done].
    cbn [fst snd] in Hc |- *. injection Hc as <-.
    by apply (fresh_profile_frame w t lg (profile_at w l) p').
  - done.
  - done.
  - intros [w t lg]. unfold getAllProfiles. run.
    by rewrite lookup_total_insert_eq.
Qed.

(** ** The edit session *)

Lemma js_index_out_of_bounds {X : Type} (a : list (option X)) (i : option Z) :
  ¬ in_bounds i (length a) → js_index a i = None.
Proof.
  intros Hout. destruct i as [z|]; [|done]. simpl.
  case_bool_decide; [|done].
  rewrite lookup_ge_None_2; [done|].
  destruct (decide (Z.to_nat z < length a)%nat); [|lia].
  exfalso. apply Hout. simpl. lia.
Qed.

(** C10.  With a profile under edit and a captured position that is no
    position of the stored custom collection (negative, past the end, or
    never set), [editProfileChanges()] returns [true] and changes
    nothing: there is no profile at the position, and the text of the
    draft differs from [undefined]. *)
Theorem editProfileChanges_stale_index (σ : State) (d : loc) :
  currentProfileEdit (this σ) = Some d →
  ¬ in_bounds (currentProfileEditIndex (this σ))
      (length (array_at (world σ) (customProfiles (this σ)))) →
  saved_value σ = None ∧ editProfileChanges σ = (true, σ).
Proof.
  intros Hd Hout. apply js_index_out_of_bounds in Hout.
  unfold saved_value. rewrite Hout. split; [done|].
  unfold editProfileChanges. run. rewrite Hd. run.
  unfold array_at in Hout. rewrite Hout. done.
Qed.

(** C5.  [editProfileChanges()] returns [false] when no profile is under
    edit; with a profile under edit it returns [true] exactly when the
    draft's value differs from the value stored at the captured
    position; and right after [setCurrentEditingProfile(n)] succeeded,
    which it does for every [n] that names a custom profile, it returns
    [false]. *)
Theorem editProfileChanges_compares_draft_with_saved (σ : State) :
  (currentProfileEdit (this σ) = None → editProfileChanges σ = (false, σ))
  ∧ (∀ d, currentProfileEdit (this σ) = Some d →
       editProfileChanges σ = (bool_decide (draft_value σ ≠ saved_value σ), σ))
  ∧ (∀ n, named n (customs_value σ) →
       let begun := setCurrentEditingProfile (Some n) σ in
       begun.1 = true
       ∧ is_Some (currentProfileEdit (this begun.2))
       ∧ (editProfileChanges begun.2).1 = false).
Proof.
  split; [|split].
  - intros Hd. unfold editProfileChanges. run. by rewrite Hd.
  - intros d Hd. unfold editProfileChanges, draft_value, saved_value. run.
    rewrite Hd. run. f_equal.
    rewrite <- bool_decide_not. apply bool_decide_ext.
    by rewrite JSON_stringify_inj.
  - intros n Hn. destruct σ as [w t lg]. unfold customs_value in Hn.
    cbn [world this] in Hn.
    destruct (findIndex_named _ _ _ Hn) as (i & l & Ei & Hi & Hl & Hjs).
    unfold setCurrentEditingProfile. run.
    change (λ e : option loc, name_is w n e) with (name_is w n).
    unfold array_at in Ei, Hjs. rewrite Ei.
    rewrite bool_decide_eq_false_2 by lia. run.
    rewrite Hjs. run. split; [done|]. split; [by eexists|].
    unfold editProfileChanges. run. rewrite Hjs.
    rewrite lookup_total_insert_eq, lookup_total_insert.
    apply negb_false_iff, bool_decide_eq_true.
    case_decide; by subst.
Qed.

(** [editProfileChanges] reads and changes nothing. *)
Lemma editProfileChanges_pure (σ : State) :
  editProfileChanges σ = ((editProfileChanges σ).1, σ).
Proof.
  unfold editProfileChanges. run. by destruct (currentProfileEdit (this σ)).
Qed.

Lemma editProfileChanges_true_draft (σ : State) :
  (editProfileChanges σ).1 = true → is_Some (currentProfileEdit (this σ)).
Proof.
  unfold editProfileChanges. run.
  destruct (currentProfileEdit (this σ)); [by eexists|done].
Qed.


(** C4, as amended.  When [customProfileName] names no custom profile,
    [setCurrentEditingProfile] returns [false] and touches no object.
    The profile under edit is dropped only when [customProfileName] is
    [undefined]; for a name that matches nothing it stays what it was. *)
Theorem setCurrentEditingProfile_unknown_name (customProfileName : option string)
    (σ : State) :
  (∀ n, customProfileName = Some n → ¬ named n (customs_value σ)) →
  let r := setCurrentEditingProfile customProfileName σ in
  r.1 = false
  ∧ currentProfileEdit (this r.2)
    = match customProfileName with
      | None => None
      | Some _ => currentProfileEdit (this σ)
      end
  ∧ world r.2 = world σ.
Proof.
  intros Hno. destruct σ as [w t lg].
  unfold setCurrentEditingProfile. destruct customProfileName as [n|]; run.
  - change (λ e : option loc, name_is w n e) with (name_is w n).
    assert (Array_findIndex (name_is w n) (array_objs w !!! customProfiles t) = -1)
      as -> by (apply findIndex_not_named; by apply Hno).
    done.
  - assert (Array_findIndex (λ _ : option loc, false)
              (array_objs w !!! customProfiles t) = -1) as ->; [|done].
    destruct (findIndex_range (λ _ : option loc, false)
                (array_objs w !!! customProfiles t)) as [E|(i & E & Hi)]; [done|].
    exfalso. unfold Array_findIndex in E.
    destruct (findIndex_from_spec (λ _ : option loc, false)
                (array_objs w !!! customProfiles t) 0)
      as [[E' _]|(i' & _ & (e & _ & Pe) & _)]; [lia|lia|done].
Qed.

End Properties.

(** ** The properties at the sample configuration *)

Lemma editProfileChanges_stale_index_witness :
  currentProfileEdit (this Sample.stale) = Some 5%positive
  ∧ ¬ in_bounds (currentProfileEditIndex (this Sample.stale))
        (length (array_at (world Sample.stale) (customProfiles (this Sample.stale))))
  ∧ saved_value Sample.stale = None
  ∧ editProfileChanges Sample.stale = (true, Sample.stale).
Proof.
  assert (H1 : currentProfileEdit (this Sample.stale) = Some 5%positive)
    by reflexivity.
  assert (H2 : ¬ in_bounds (currentProfileEditIndex (this Sample.stale))
                 (length (array_at (world Sample.stale)
                            (customProfiles (this Sample.stale)))))
    by (intros H; vm_compute in H; destruct H as [_ H]; discriminate H).
  split; [exact H1|]. split; [exact H2|].
  exact (editProfileChanges_stale_index Sample.stale 5%positive H1 H2).
Defined.

Lemma Sample_customs_named_Play : named "Play" (customs_value Sample.idle).
Proof. exists 1%nat, Sample.Play. split; reflexivity. Qed.

Lemma editProfileChanges_compares_draft_with_saved_witness :
  named "Play" (customs_value Sample.idle)
  ∧ (setCurrentEditingProfile (Some "Play"%string) Sample.idle).1 = true
  ∧ (editProfileChanges Sample.editing).1 = false.
Proof.
  split; [exact Sample_customs_named_Play|].
  destruct (editProfileChanges_compares_draft_with_saved Sample.idle)
    as (_ & _ & Hbegin).
  destruct (Hbegin "Play"%string Sample_customs_named_Play) as (Hb & _ & Hc).
  split; [exact Hb|exact Hc].
Defined.

Lemma Sample_customs_not_named_Nope :
  ¬ named "Nope" (customs_value Sample.editing).
Proof. apply findIndex_not_named. reflexivity. Qed.

Lemma setCurrentEditingProfile_unknown_name_witness :
  (setCurrentEditingProfile (Some "Nope"%string) Sample.editing).1 = false
  ∧ currentProfileEdit
      (this (setCurrentEditingProfile (Some "Nope"%string) Sample.editing).2)
    = currentProfileEdit (this Sample.editing)
  ∧ (setCurrentEditingProfile None Sample.editing).1 = false
  ∧ currentProfileEdit (this (setCurrentEditingProfile None Sample.editing).2) = None.
Proof.
  destruct (setCurrentEditingProfile_unknown_name (Some "Nope"%string) Sample.editing)
    as (H1 & H2 & _).
  { intros n [= <-]. exact Sample_customs_not_named_Nope. }
  destruct (setCurrentEditingProfile_unknown_name None Sample.editing)
    as (H3 & H4 & _).
  { intros n [=]. }
  repeat split; assumption.
Defined.

(** C4, as stated, fails: with [Play] under edit, a call with a name that
    matches no custom profile returns [false] and the draft is still
    there. *)
Lemma setCurrentEditingProfile_keeps_draft :
  customs_value Sample.editing = [Some Sample.Work; Some Sample.Play]
  ∧ currentProfileEdit (this Sample.editing) = Some 5%positive
  ∧ ¬ named "Nope" (customs_value Sample.editing)
  ∧ (setCurrentEditingProfile (Some "Nope"%string) Sample.editing).1 = false
  ∧ (getCurrentEditingProfile
       (setCurrentEditingProfile (Some "Nope"%string) Sample.editing).2).1
    = Some 5%positive.
Proof.
  split; [reflexivity|]. split; [reflexivity|].
  split; [exact Sample_customs_not_named_Nope|].
  split; reflexivity.
Qed.

Lemma Sample_idle_well_formed : well_formed Sample.idle = true.
Proof. reflexivity. Qed.

Lemma Sample_Work_edited_live :
  4%positive ∈ dom (profile_objs (world Sample.idle)).
Proof. compute_done. Qed.


Lemma Sample_resolves (n : string) (i : nat) :
  Array_findIndex (name_is (world Sample.idle) n)
    (array_at (world Sample.idle) (customProfiles (this Sample.idle))) = Z.of_nat i →
  resolves n (customs_value Sample.idle) i.
Proof. intros E. by apply findIndex_resolves. Qed.

Lemma Sample_resolves_inv (n : string) (i : nat) :
  resolves n (customs_value Sample.idle) i →
  Array_findIndex (name_is (world Sample.idle) n)
    (array_at (world Sample.idle) (customProfiles (this Sample.idle))) = Z.of_nat i.
Proof. intros E. by apply findIndex_resolves. Qed.

Lemma Sample_defaults_not_named (n : string) :
  Array_findIndex (name_is (world Sample.idle) n)
    (array_at (world Sample.idle) (defaultProfiles (this Sample.idle))) = -1 →
  ¬ named n (defaults_value Sample.idle).
Proof. intros E. by apply findIndex_not_named. Qed.

Lemma setActiveProfile_stages_and_refreshes_witness :
  ∃ s',
    log (setActiveProfile Sample.helper_fails "Play" "AC" Sample.idle).2
    = [config_writeSettings_call (mkSettings {["AC"%string := "Play"%string]} [])
         "/tmp/tmptccsettings";
       ipcRenderer_sendSync_call "exec-cmd-sync"
         "pkexec /opt/tuxedo-control-center/tccd --new_settings /tmp/tmptccsettings";
       settingsSubject_next s'].
Proof.
  destruct (setActiveProfile_stages_and_refreshes Sample.helper_fails "Play" "AC"
              Sample.idle) as (_ & _ & w1 & _ & Hlog & _).
  eexists. exact Hlog.
Defined.

Lemma writeProfile_overwrites_iff_permitted_witness :
  4%positive ∈ dom (profile_objs (world Sample.idle))
  ∧ resolves "Work" (customs_value Sample.idle) 0
  ∧ ¬ named "Work" (defaults_value Sample.idle)
  ∧ ∃ rest,
      log (writeProfile Sample.helper_succeeds "Work" 4%positive None Sample.idle).2
      = config_writeProfiles_call [Some Sample.Work_edited; Some Sample.Play]
          "/tmp/tmptccprofiles" :: rest.
Proof.
  assert (H1 : resolves "Work" (customs_value Sample.idle) 0)
    by (apply Sample_resolves; reflexivity).
  assert (H2 : ¬ named "Work" (defaults_value Sample.idle))
    by (apply Sample_defaults_not_named; reflexivity).
  split; [exact Sample_Work_edited_live|]. split; [exact H1|]. split; [exact H2|].
  destruct (writeProfile_overwrites_iff_permitted Sample.helper_succeeds "Work"
              4%positive None Sample.idle Sample_Work_edited_live)
    as (staged & rest & Hlog & Hyes & _ & _).
  assert (Hstaged : staged = <[0%nat := Some (profile_at (world Sample.idle) 4%positive)]>
                               (customs_value Sample.idle)).
  { apply (Hyes 0%nat H1 H2).
    intros j Hj. apply Sample_resolves_inv in Hj.
    change (0 = Z.of_nat j) in Hj. lia. }
  exists rest. rewrite Hlog, Hstaged. reflexivity.
Defined.




Lemma Sample_customs_not_named_Nope_idle :
  ¬ named "Nope" (customs_value Sample.idle).
Proof. apply findIndex_not_named. reflexivity. Qed.

Lemma writeProfile_unknown_current_name_witness :
  4%positive ∈ dom (profile_objs (world Sample.idle))
  ∧ ¬ named "Nope" (customs_value Sample.idle)
  ∧ (writeProfile Sample.helper_succeeds "Nope" 4%positive (Some ["AC"%string])
       Sample.idle).1 = true
  ∧ log (writeProfile Sample.helper_fails "Nope" 4%positive (Some ["AC"%string])
           Sample.idle).2
    = [config_writeProfiles_call [Some Sample.Work; Some Sample.Play]
         "/tmp/tmptccprofiles";
       config_writeSettings_call (mkSettings {["AC"%string := "Work"%string]} [])
         "/tmp/tmptccsettings";
       utils_execFile_call
         "pkexec /opt/tuxedo-control-center/tccd --new_profiles /tmp/tmptccprofiles --new_settings /tmp/tmptccsettings"].
Proof.
  split; [exact Sample_Work_edited_live|].
  split; [exact Sample_customs_not_named_Nope_idle|].
  destruct (writeProfile_unknown_current_name Sample.helper_succeeds "Nope"
              4%positive (Some ["AC"%string]) Sample.idle Sample_Work_edited_live
              Sample_customs_not_named_Nope_idle)
    as (_ & _ & w1 & _ & _ & Hres & _).
  destruct (writeProfile_unknown_current_name Sample.helper_fails "Nope"
              4%positive (Some ["AC"%string]) Sample.idle Sample_Work_edited_live
              Sample_customs_not_named_Nope_idle)
    as (_ & _ & w1' & _ & _ & _ & Hlog).
  split; [exact Hres|exact Hlog].
Defined.



Lemma copyProfile_guards_and_appends_witness :
  well_formed Sample.idle = true
  ∧ (copyProfile Sample.helper_succeeds "Nope" "New" Sample.idle).1 = false
  ∧ (copyProfile Sample.helper_succeeds "Work" "Office" Sample.idle).1 = false
  ∧ log (copyProfile Sample.helper_succeeds "Work" "Office" Sample.idle).2 = []
  ∧ (copyProfile Sample.helper_succeeds "Work" "New" Sample.idle).1 = true
  ∧ ∃ rest,
      log (copyProfile Sample.helper_succeeds "Work" "New" Sample.idle).2
      = config_writeProfiles_call
          [Some Sample.Work; Some Sample.Play;
           Some (mkProfile "New" (members Sample.Work))]
          "/tmp/tmptccprofiles" :: rest.
Proof.
  split; [exact Sample_idle_well_formed|].
  destruct (copyProfile_guards_and_appends Sample.helper_succeeds "Nope" "New"
              Sample.idle Sample_idle_well_formed) as [Hguard _].
  destruct Hguard as (H1 & _).
  { left. apply first_named_None. reflexivity. }
  destruct (copyProfile_guards_and_appends Sample.helper_succeeds "Work" "Office"
              Sample.idle Sample_idle_well_formed) as [Hguard _].
  destruct Hguard as (H2 & H3 & _).
  { right. exists 0%nat, Sample.Office. split; reflexivity. }
  destruct (copyProfile_guards_and_appends Sample.helper_succeeds "Work" "New"
              Sample.idle Sample_idle_well_formed) as [_ Happend].
  destruct (Happend Sample.Work) as (w1 & _ & Hres & Hlog & _).
  { reflexivity. }
  { apply first_named_None. reflexivity. }
  split; [exact H1|]. split; [exact H2|]. split; [exact H3|].
  split; [exact Hres|]. eexists. exact Hlog.
Defined.

Lemma lookups_by_name_hand_out_copies_witness :
  well_formed Sample.idle = true
  ∧ (getProfileByName "Play" Sample.idle).1 = Some 5%positive
  ∧ same_observations Sample.idle
      (mutate_profile 5%positive Sample.Office (getProfileByName "Play" Sample.idle).2).
Proof.
  split; [exact Sample_idle_well_formed|]. split; [reflexivity|].
  destruct lookups_by_name_hand_out_copies as [Hcopy _].
  apply (Hcopy "Play"%string Sample.idle 5%positive Sample.Office
           Sample_idle_well_formed).
  reflexivity.
Defined.

(** C1, as stated, fails for three of the accessors.  Through the result
    of [getSettings] a caller rewrites the stored settings; through the
    result of [getCustomProfiles] it empties the stored custom
    collection; through a slot of the array [getAllProfiles] returns it
    rewrites a stored custom profile. *)
Lemma accessors_hand_out_stored_objects :
  well_formed Sample.idle = true
  ∧ settings_value
      (mutate_settings (getSettings Sample.idle).1
         (mkSettings {["AC"%string := "Play"%string]} []) (getSettings Sample.idle).2)
    ≠ settings_value Sample.idle
  ∧ customs_value
      (mutate_array (getCustomProfiles Sample.idle).1 [] (getCustomProfiles Sample.idle).2)
    ≠ customs_value Sample.idle
  ∧ Some 2%positive
      ∈ array_at (world (getAllProfiles Sample.idle).2) (getAllProfiles Sample.idle).1
  ∧ customs_value
      (mutate_profile 2%positive Sample.Work_edited (getAllProfiles Sample.idle).2)
    ≠ customs_value Sample.idle
  ∧ ¬ copies_settings getSettings
  ∧ ¬ copies_profiles getCustomProfiles
  ∧ ¬ copies_profiles getAllProfiles.
Proof.
  assert (H1 : settings_value
                 (mutate_settings (getSettings Sample.idle).1
                    (mkSettings {["AC"%string := "Play"%string]} [])
                    (getSettings Sample.idle).2)
               ≠ settings_value Sample.idle)
    by compute_done.
  assert (H2 : customs_value
                 (mutate_array (getCustomProfiles Sample.idle).1 []
                    (getCustomProfiles Sample.idle).2)
               ≠ customs_value Sample.idle)
    by compute_done.
  assert (H3 : Some 2%positive
                 ∈ array_at (world (getAllProfiles Sample.idle).2)
                     (getAllProfiles Sample.idle).1)
    by compute_done.
  assert (H4 : customs_value
                 (mutate_profile 2%positive Sample.Work_edited
                    (getAllProfiles Sample.idle).2)
               ≠ customs_value Sample.idle)
    by compute_done.
  split; [exact Sample_idle_well_formed|].
  split; [exact H1|]. split; [exact H2|]. split; [exact H3|]. split; [exact H4|].
  split; [|split].
  - intros Hcopies. apply H1.
    destruct (Hcopies Sample.idle (mkSettings {["AC"%string := "Play"%string]} [])
                Sample_idle_well_formed) as (Hs & _).
    exact Hs.
  - intros Hcopies. apply H2.
    destruct (Hcopies Sample.idle Sample_idle_well_formed) as [Harr _].
    destruct (Harr []) as (_ & _ & Hc & _). exact Hc.
  - intros Hcopies. apply H4.
    destruct (Hcopies Sample.idle Sample_idle_well_formed) as [_ Hslot].
    destruct (Hslot 2%positive Sample.Work_edited H3) as (_ & _ & Hc & _).
    exact Hc.
Qed.

(** * Further properties of the service *)

Section Further.

Variable env : Collaborators.

(** ** Save settings *)

(** X1.  [saveSettings()] stages the custom collection and the settings
    exactly as the service holds them, calls the helper once with both
    files, returns the helper's success, and refreshes exactly when the
    helper succeeded. *)
Theorem saveSettings_stages_what_is_held (σ : State) :
  let cmd := ("pkexec " +:+ tccdExec env +:+ " --new_profiles " +:+ "/tmp/tmptccprofiles"
              +:+ " --new_settings " +:+ "/tmp/tmptccsettings")%string in
  ∃ w1,
    files w1 !! "/tmp/tmptccprofiles"%string = Some (ProfilesData (customs_value σ))
    ∧ files w1 !! "/tmp/tmptccsettings"%string = Some (SettingsData (settings_value σ))
    ∧ let answer := utils_execFile env cmd w1 in
      let r := saveSettings env σ in
      r.1 = answer.1
      ∧ log r.2
        = log σ ++ [config_writeProfiles_call (customs_value σ) "/tmp/tmptccprofiles";
                    config_writeSettings_call (settings_value σ) "/tmp/tmptccsettings";
                    utils_execFile_call cmd]
                ++ (if answer.1 then [settingsSubject_next (settings (this r.2))] else [])
      ∧ settled answer.1 answer.2 σ r.2.
Proof.
  destruct σ as [w t lg]. unfold customs_value, settings_value, settled.
  cbn [world this log]. cbn zeta. unfold saveSettings. run.
  destruct (copyConfig_profiles_run (customProfiles t) w t lg)
    as (m' & copies & E & Hsub & Hval).
  rewrite E. clear E. run.
  rewrite pkexecWriteConfigAsync_run. cbn zeta. run.
  rewrite !lookup_total_insert_eq, Hval.
  match goal with
  | |- context [utils_execFile env ?c ?w1] =>
      exists w1; destruct (utils_execFile env c w1) as [[] w2]
  end; run;
  (split; [by rewrite lookup_insert_ne, lookup_insert_eq|]);
  (split; [by rewrite lookup_insert_eq|]);
  unfold settings_value; run;
  rewrite ?lookup_total_insert_eq, ?app_nil_r, <- ?app_assoc;
  repeat split; reflexivity.
Qed.

(** ** Delete a custom profile *)

Lemma Array_filter_length {X : Type} (P : X → bool) (a : list (option X)) :
  (length (Array_filter P a) ≤ length a)%nat.
Proof.
  induction a as [|[x|] a IH]; simpl; [lia| |lia].
  destruct (P x); simpl; lia.
Qed.

Lemma Array_filter_all {X : Type} (P : X → bool) (a : list (option X)) :
  dense a = true → (∀ x, Some x ∈ a → P x = true) → Array_filter P a = a.
Proof.
  induction a as [|[x|] a IH]; simpl; intros Hd Hall; [done| |done].
  rewrite Hall by (by left). f_equal. apply IH; [done|].
  intros y Hy. apply Hall. by right.
Qed.

Lemma Array_filter_drops {X : Type} (P : X → bool) (a : list (option X)) (x : X) :
  Some x ∈ a → P x = false → (length (Array_filter P a) < length a)%nat.
Proof.
  induction a as [|[y|] a IH]; simpl; intros Hx Hp.
  - by apply elem_of_nil in Hx.
  - apply elem_of_cons in Hx as [[= <-]|Hx].
    + rewrite Hp. pose proof (Array_filter_length P a). lia.
    + specialize (IH Hx Hp). destruct (P y); simpl; lia.
  - apply elem_of_cons in Hx as [[=]|Hx]. specialize (IH Hx Hp). lia.
Qed.

(** Filtering the references by the name of their objects and reading
    the values is filtering the values by name. *)
Lemma array_value_filter (w : World) (n : string) (a : list (option loc)) :
  array_value w (Array_filter (λ l, negb (bool_decide (name (profile_at w l) = n))) a)
  = Array_filter (λ p, negb (bool_decide (name p = n))) (array_value w a).
Proof.
  induction a as [|[l|] a IH]; simpl; [done| |done].
  destruct (negb _); simpl; by rewrite IH.
Qed.

Lemma filter_not_named (n : string) (vs : list (option Profile)) :
  ¬ named n (Array_filter (λ p, negb (bool_decide (name p = n))) vs).
Proof.
  induction vs as [|[p|] vs IH]; simpl.
  - intros (i & q & Hi & _). by rewrite lookup_nil in Hi.
  - case_bool_decide as Hp; simpl; [done|].
    intros ([|i] & q & Hi & Hq); simpl in Hi.
    + by simplify_eq.
    + apply IH. by exists i, q.
  - done.
Qed.

(** Filtering by one name leaves every lookup by another name as it was. *)
Lemma filter_first_named_other (n n' : string) (vs : list (option Profile)) :
  n' ≠ n →
  first_named n' (Array_filter (λ p, negb (bool_decide (name p = n))) vs)
  = first_named n' vs.
Proof.
  intros Hne. induction vs as [|[p|] vs IH]; simpl; [done| |done].
  case_bool_decide as Hp; simpl.
  - rewrite bool_decide_eq_false_2 by congruence. done.
  - by rewrite IH.
Qed.

Lemma named_slot (w : World) (n : string) (a : list (option loc)) :
  named n (array_value w a) ↔ ∃ l, Some l ∈ a ∧ name (profile_at w l) = n.
Proof.
  split.
  - intros (i & p & Hi & Hp). rewrite array_value_lookup in Hi.
    destruct (a !! i) as [[l|]|] eqn:Ha; simplify_eq/=.
    exists l. split; [by eapply list_elem_of_lookup_2|done].
  - intros (l & [i Hi]%list_elem_of_lookup_1 & Hn).
    exists i, (profile_at w l). by rewrite array_value_lookup, Hi.
Qed.

(** X2.  When no custom profile is named [profileNameToDelete],
    [deleteCustomProfile] returns [false]: it stages nothing, calls no
    helper and leaves the service and the custom collection as they
    were. *)
Theorem deleteCustomProfile_unknown_name (profileNameToDelete : string) (σ : State) :
  well_formed σ = true →
  dense (array_at (world σ) (customProfiles (this σ))) = true →
  ¬ named profileNameToDelete (customs_value σ) →
  let r := deleteCustomProfile env profileNameToDelete σ in
  r.1 = false
  ∧ log r.2 = log σ
  ∧ this r.2 = this σ
  ∧ files (world r.2) = files (world σ)
  ∧ customs_value r.2 = customs_value σ.
Proof.
  intros Hwf Hdense Hno. destruct σ as [w t lg].
  unfold well_formed in Hwf. cbn [world this] in *.
  apply andb_prop in Hwf as [Hwf _]. apply andb_prop in Hwf as [Hwf _].
  apply andb_prop in Hwf as [HC _]. apply bool_decide_eq_true in HC.
  unfold customs_value in *. cbn [world this] in *.
  unfold deleteCustomProfile. run.
  rewrite lookup_total_insert_eq.
  rewrite (lookup_total_insert_live _ _ _ _ HC) by apply is_fresh.
  unfold array_at in Hdense, Hno.
  rewrite Array_filter_all; [|done|].
  - rewrite bool_decide_eq_true_2 by done. run.
    rewrite (lookup_total_insert_live _ _ _ _ HC) by apply is_fresh. done.
  - intros l Hl. apply negb_true_iff, bool_decide_eq_false.
    intros Hn. apply Hno, named_slot. by exists l.
Qed.

(** A deletion that finds the name, step by step. *)
Lemma deleteCustomProfile_run (profileNameToDelete : string) (σ : State) :
  well_formed σ = true →
  named profileNameToDelete (customs_value σ) →
  let staged :=
    Array_filter (λ p, negb (bool_decide (name p = profileNameToDelete)))
      (customs_value σ) in
  let cmd := ("pkexec " +:+ tccdExec env +:+ " --new_profiles "
              +:+ "/tmp/tmptccprofiles")%string in
  ∃ w1,
    files w1 !! "/tmp/tmptccprofiles"%string = Some (ProfilesData staged)
    ∧ let answer := utils_execFile env cmd w1 in
      let r := deleteCustomProfile env profileNameToDelete σ in
      r.1 = answer.1
      ∧ log r.2
        = log σ ++ [config_writeProfiles_call staged "/tmp/tmptccprofiles";
                    utils_execFile_call cmd]
                ++ (if answer.1 then [settingsSubject_next (settings (this r.2))]
                    else [])
      ∧ settled answer.1 answer.2 σ r.2.
Proof.
  intros Hwf Hyes. cbv zeta.
  destruct σ as [w t lg].
  unfold well_formed in Hwf. cbn [world this] in *.
  apply andb_prop in Hwf as [Hwf _]. apply andb_prop in Hwf as [Hwf _].
  apply andb_prop in Hwf as [HC _]. apply bool_decide_eq_true in HC.
  unfold customs_value, settled in *. cbn [world this log] in *.
  apply named_slot in Hyes as (l & Hl & Hn).
  unfold deleteCustomProfile. run.
  rewrite lookup_total_insert_eq.
  rewrite (lookup_total_insert_live _ _ _ _ HC) by apply is_fresh.
  rewrite bool_decide_eq_false_2.
  2:{ unfold array_at in Hl.
      pose proof (Array_filter_drops
                    (λ l0, negb (bool_decide (name (profile_objs w !!! l0)
                                              = profileNameToDelete)))
                    _ l Hl) as Hlt.
      cbv beta in Hlt. unfold profile_at in Hn. rewrite Hn in Hlt.
      rewrite bool_decide_eq_true_2 in Hlt by done. specialize (Hlt eq_refl). lia. }
  run. rewrite pkexecWriteCustomProfilesAsync_run. cbv zeta. run.
  rewrite lookup_total_insert_eq.
  match goal with
  | |- context [array_value (mkWorld ?a ?b ?c ?d ?e ?f) ?x] =>
      change (array_value (mkWorld a b c d e f) x) with (array_value w x)
  end.
  pose proof (array_value_filter w profileNameToDelete
                (array_objs w !!! customProfiles t)) as Hfilter.
  unfold profile_at in Hfilter. rewrite Hfilter. clear Hfilter.
  match goal with
  | |- context [utils_execFile env ?c ?w1] =>
      exists w1; destruct (utils_execFile env c w1) as [[] w2]
  end; run;
  (split; [by rewrite lookup_insert_eq|]);
  unfold settings_value; run;
  rewrite ?lookup_total_insert_eq, ?app_nil_r, <- ?app_assoc;
  repeat split; reflexivity.
Qed.

(** X3.  When a custom profile is named [profileNameToDelete],
    [deleteCustomProfile] stages the custom collection without the
    profiles of that name, the others in their order, and stages no
    settings; it calls the helper once, returns the helper's success, and
    refreshes exactly when the helper succeeded. *)
Theorem deleteCustomProfile_known_name (profileNameToDelete : string) (σ : State) :
  well_formed σ = true →
  named profileNameToDelete (customs_value σ) →
  let staged :=
    Array_filter (λ p, negb (bool_decide (name p = profileNameToDelete)))
      (customs_value σ) in
  let cmd := ("pkexec " +:+ tccdExec env +:+ " --new_profiles "
              +:+ "/tmp/tmptccprofiles")%string in
  ¬ named profileNameToDelete staged
  ∧ (∀ n, n ≠ profileNameToDelete →
          first_named n staged = first_named n (customs_value σ))
  ∧ ∃ w1,
      files w1 !! "/tmp/tmptccprofiles"%string = Some (ProfilesData staged)
      ∧ let answer := utils_execFile env cmd w1 in
        let r := deleteCustomProfile env profileNameToDelete σ in
        r.1 = answer.1
        ∧ log r.2
          = log σ ++ [config_writeProfiles_call staged "/tmp/tmptccprofiles";
                      utils_execFile_call cmd]
                  ++ (if answer.1 then [settingsSubject_next (settings (this r.2))]
                      else [])
        ∧ settled answer.1 answer.2 σ r.2.
Proof.
  intros Hwf Hyes. cbv zeta.
  split; [apply filter_not_named|].
  split; [intros n Hn; by apply filter_first_named_other|].
  by apply deleteCustomProfile_run.
Qed.

(** ** Refresh *)

(** X4.  [updateConfigData()] takes the custom collection from the D-Bus
    client and the settings from the settings file, and leaves the
    built-in collection and the edit session alone.  Run again on the
    same world it shows the same values; each run announces the settings
    once, and each run makes a new settings object, leaving the one
    before it as it is. *)
Theorem updateConfigData_idempotent (σ : State) :
  let σ1 := (updateConfigData σ).2 in
  let σ2 := (updateConfigData σ1).2 in
  customProfiles (this σ1) = dbus_customProfiles (world σ)
  ∧ settings_value σ1 = settings_file (world σ)
  ∧ defaultProfiles (this σ1) = defaultProfiles (this σ)
  ∧ currentProfileEdit (this σ1) = currentProfileEdit (this σ)
  ∧ currentProfileEditIndex (this σ1) = currentProfileEditIndex (this σ)
  ∧ log σ1 = log σ ++ [settingsSubject_next (settings (this σ1))]
  ∧ same_observations σ1 σ2
  ∧ log σ2 = log σ1 ++ [settingsSubject_next (settings (this σ2))]
  ∧ settings (this σ2) ≠ settings (this σ1)
  ∧ settings_at (world σ2) (settings (this σ1)) = settings_value σ1.
Proof.
  destruct σ as [w t lg]. cbv zeta. unfold settings_value. run.
  rewrite !lookup_total_insert_eq.
  set (s1 := fresh (dom (settings_objs w))).
  set (st1 := <[s1 := settings_file w]> (settings_objs w)).
  assert (Hs1 : s1 ∈ dom st1) by (unfold st1; rewrite dom_insert_L; set_solver).
  assert (Hs2 : fresh (dom st1) ∉ dom st1) by apply is_fresh.
  assert (Hne : fresh (dom st1) ≠ s1) by (intros E; by rewrite E in Hs2).
  repeat (split; [reflexivity|]).
  split; [|split; [reflexivity|split; [done|]]].
  - apply same_observations_intro.
    + unfold settings_value. run. unfold st1. by rewrite !lookup_total_insert_eq.
    + reflexivity.
    + reflexivity.
  - rewrite lookup_total_insert_ne by done. unfold st1.
    by rewrite lookup_total_insert_eq.
Qed.

(** ** Lookups by name *)

Lemma first_named_app (n : string) (vs vs' : list (option Profile)) :
  first_named n (vs ++ vs')
  = match first_named n vs with
    | Some p => Some p
    | None => first_named n vs'
    end.
Proof.
  induction vs as [|[p|] vs IH]; simpl; [done| |done].
  by case_bool_decide.
Qed.

(** X5.  [getProfileByName(n)] searches the built-in profiles before the
    custom ones: it returns the built-in profile named [n] when there is
    one, and what [getCustomProfileByName(n)] returns when there is
    none.  What it returns is named [n], and it returns [undefined]
    exactly when no profile is named [n]. *)
Theorem getProfileByName_prefers_builtin (n : string) (σ : State) :
  (∀ p, first_named n (defaults_value σ) = Some p →
        getProfileByName_value n σ = Some p)
  ∧ (¬ named n (defaults_value σ) →
       getProfileByName_value n σ = getCustomProfileByName_value n σ)
  ∧ (∀ p, getProfileByName_value n σ = Some p → name p = n)
  ∧ (getProfileByName_value n σ = None
     ↔ ¬ named n (defaults_value σ ++ customs_value σ)).
Proof.
  rewrite getProfileByName_value_eq, getCustomProfileByName_value_eq, first_named_app.
  split; [|split; [|split]].
  - by intros p ->.
  - intros Hno. apply first_named_None in Hno. by rewrite Hno.
  - intros p Hp. apply (first_named_name n (defaults_value σ ++ customs_value σ)).
    by rewrite first_named_app.
  - rewrite <- first_named_None. by rewrite first_named_app.
Qed.

(** ** The edit session *)

(** What the service shows does not depend on the edit session or on
    the log. *)
Lemma same_observations_session (σ σ' : State) (t' : ConfigService)
    (lg' : list Event) :
  same_observations σ σ' →
  defaultProfiles t' = defaultProfiles (this σ') →
  customProfiles t' = customProfiles (this σ') →
  settings t' = settings (this σ') →
  same_observations σ (mkState (world σ') t' lg').
Proof.
  intros (Hs & Hd & Hc & _) Ed Ec Es. apply same_observations_intro.
  - rewrite <- Hs. unfold settings_value. cbn [world this]. by rewrite Es.
  - rewrite <- Hd. unfold defaults_value. cbn [world this]. by rewrite Ed.
  - rewrite <- Hc. unfold customs_value. cbn [world this]. by rewrite Ec.
Qed.

(** A successful [setCurrentEditingProfile], step by step. *)
Lemma setCurrentEditingProfile_run (n : string) (w : World) (t : ConfigService)
    (lg : list Event) (i : nat) :
  resolves n (array_value w (array_at w (customProfiles t))) i →
  ∃ l, array_at w (customProfiles t) !! i = Some (Some l)
       ∧ name (profile_at w l) = n
       ∧ (let c := fresh (dom (profile_objs w)) in
          setCurrentEditingProfile (Some n) (mkState w t lg)
          = (true,
             mkState (mkWorld (<[c := profile_at w l]> (profile_objs w)) (array_objs w)
                        (settings_objs w) (dbus_customProfiles w) (settings_file w)
                        (files w))
                     (mkConfigService (defaultProfiles t) (customProfiles t) (settings t)
                        (Some c) (Some (Z.of_nat i)))
                     (lg ++ [editingProfileSubject_next (Some c);
                             editingProfile_next (Some c)]))).
Proof.
  intros Hres. pose proof Hres as [(p & Hp & Hn) _].
  apply findIndex_resolves in Hres.
  rewrite array_value_lookup in Hp.
  destruct (array_at w (customProfiles t) !! i) as [[l|]|] eqn:El; try done.
  injection Hp as Hp. exists l. split; [done|]. split; [by rewrite Hp|].
  cbv zeta. unfold setCurrentEditingProfile. run.
  change (λ e : option loc, name_is w n e) with (name_is w n).
  unfold array_at in Hres, El. rewrite Hres.
  rewrite bool_decide_eq_false_2 by lia. run.
  unfold js_index. rewrite bool_decide_eq_true_2 by lia.
  rewrite Nat2Z.id, El. cbn [mjoin option_join]. run.
  by rewrite <- app_assoc.
Qed.

(** The service with position [i] of the custom collection under edit,
    the draft, a new object, holding [p']: it shows what the service
    shows without the session, and reports changes exactly when [p'] is
    not the stored value. *)
Lemma draft_frame (w : World) (t : ConfigService) (lg lg' : list Event) (i : nat)
    (l : loc) (p' : Profile) :
  well_formed (mkState w t lg) = true →
  array_at w (customProfiles t) !! i = Some (Some l) →
  let c := fresh (dom (profile_objs w)) in
  let σ' := mkState (mkWorld (<[c := p']> (profile_objs w)) (array_objs w)
                       (settings_objs w) (dbus_customProfiles w) (settings_file w)
                       (files w))
                    (mkConfigService (defaultProfiles t) (customProfiles t) (settings t)
                       (Some c) (Some (Z.of_nat i))) lg' in
  same_observations (mkState w t lg) σ'
  ∧ live_slot (world σ') (Some c) = true
  ∧ draft_value σ' = Some p'
  ∧ editProfileChanges σ' = (bool_decide (p' ≠ profile_at w l), σ').
Proof.
  intros Hwf El. cbv zeta.
  set (c := fresh (dom (profile_objs w))).
  assert (Hc : c ∉ dom (profile_objs w)) by apply is_fresh.
  assert (Hl : l ∈ dom (profile_objs w)).
  { unfold well_formed in Hwf. cbn [world this] in Hwf.
    apply andb_prop in Hwf as [Hwf _]. apply andb_prop in Hwf as [_ Hwf].
    apply (live_slots_elem w (array_at w (customProfiles t))); [done|].
    apply list_elem_of_lookup. by exists i. }
  assert (Hcl : c ≠ l) by (intros E; by rewrite E in Hc).
  split; [|split; [|split]].
  - pose proof (fresh_profile_frame w t lg p' p' (array_objs w) Hwf
                  (reflexivity _)) as Hobs.
    cbv zeta in Hobs. unfold mutate_profile in Hobs. revert Hobs. run.
    rewrite insert_insert_eq. intros Hobs.
    by apply (same_observations_session _ _
                (mkConfigService (defaultProfiles t) (customProfiles t) (settings t)
                   (Some c) (Some (Z.of_nat i))) lg') in Hobs.
  - cbn [world live_slot profile_objs]. apply bool_decide_eq_true.
    rewrite dom_insert_L. set_solver.
  - unfold draft_value. run. by rewrite lookup_total_insert_eq.
  - unfold editProfileChanges. run.
    unfold js_index. rewrite (bool_decide_eq_true_2 (0 ≤ Z.of_nat i)) by lia.
    unfold array_at in El. rewrite Nat2Z.id, El. cbn [mjoin option_join].
    rewrite lookup_total_insert_eq, lookup_total_insert_ne by done.
    f_equal. rewrite <- bool_decide_not. apply bool_decide_ext.
    rewrite JSON_stringify_inj. split; congruence.
Qed.

(** A commit with changes, step by step. *)
Lemma writeCurrentEditingProfile_run (σ : State) :
  (editProfileChanges σ).1 = true →
  live_slot (world σ) (currentProfileEdit (this σ)) = true →
  let staged := js_assign (customs_value σ) (currentProfileEditIndex (this σ))
                  (draft_value σ) in
  let cmd := ("pkexec " +:+ tccdExec env +:+ " --new_profiles "
              +:+ "/tmp/tmptccprofiles")%string in
  ∃ w1,
    files w1 !! "/tmp/tmptccprofiles"%string = Some (ProfilesData staged)
    ∧ profile_objs (world σ) ⊆ profile_objs w1
    ∧ let answer := ipcRenderer_sendSync env "exec-cmd-sync" cmd w1 in
      let success := bool_decide (answer.1 = None) in
      let r := writeCurrentEditingProfile env σ in
      r.1 = success
      ∧ log r.2
        = log σ ++ [config_writeProfiles_call staged "/tmp/tmptccprofiles";
                    ipcRenderer_sendSync_call "exec-cmd-sync" cmd]
                ++ (if success then [settingsSubject_next (settings (this r.2))]
                    else [])
      ∧ settled success answer.2 σ r.2.
Proof.
  intros Hyes Hlive. cbv zeta.
  destruct (editProfileChanges_true_draft _ Hyes) as [d Hd].
  destruct σ as [w t lg]. cbn [world this log] in *.
  unfold customs_value, draft_value, settled, settings_value. cbn [world this log].
  rewrite Hd in Hlive |- *. simpl in Hlive. apply bool_decide_eq_true in Hlive.
  unfold writeCurrentEditingProfile. run.
  rewrite editProfileChanges_pure, Hyes. run.
  destruct (copyConfig_profiles_run (customProfiles t) w t lg)
    as (m' & copies & E & Hsub & Hval).
  rewrite E. clear E. run.
  rewrite pkexecWriteCustomProfiles_run. cbn zeta. run.
  rewrite !lookup_total_insert_eq, array_value_js_assign, Hval. run.
  rewrite Hd. run. rewrite (lookup_total_subseteq _ _ _ Hsub Hlive).
  match goal with
  | |- context [ipcRenderer_sendSync env ?ch ?c ?w1] =>
      exists w1; destruct (ipcRenderer_sendSync env ch c w1) as [[err|] w2]
  end; cbn [fst snd];
  [ rewrite !bool_decide_eq_false_2 by done
  | rewrite !bool_decide_eq_true_2 by done ]; run;
  (split; [by rewrite lookup_insert_eq|]);
  (split; [exact Hsub|]);
  rewrite ?lookup_total_insert_eq, ?app_nil_r, <- ?app_assoc;
  repeat split; by rewrite ?Hd.
Qed.

(** X7.  [setCurrentEditingProfile(n)] for a name of a custom profile
    returns [true], captures the position of the first profile of that
    name, and makes the draft a new object holding that profile's value;
    it announces the draft on both subjects and changes nothing the
    service shows.  Whatever a caller then writes into the draft, the
    service still shows the same, and [editProfileChanges()] is [true]
    exactly when the draft's value is no longer the stored profile's. *)
Theorem setCurrentEditingProfile_opens_isolated_draft (n : string) (i : nat)
    (σ : State) :
  well_formed σ = true →
  resolves n (customs_value σ) i →
  let r := setCurrentEditingProfile (Some n) σ in
  ∃ d v,
    r.1 = true
    ∧ customs_value σ !! i = Some (Some v)
    ∧ currentProfileEdit (this r.2) = Some d
    ∧ (d ∉ dom (profile_objs (world σ)))
    ∧ currentProfileEditIndex (this r.2) = Some (Z.of_nat i)
    ∧ draft_value r.2 = Some v
    ∧ log r.2 = log σ ++ [editingProfileSubject_next (Some d);
                          editingProfile_next (Some d)]
    ∧ same_observations σ r.2
    ∧ ∀ p', let σ' := mutate_profile d p' r.2 in
            same_observations σ σ'
            ∧ draft_value σ' = Some p'
            ∧ editProfileChanges σ' = (bool_decide (p' ≠ v), σ').
Proof.
  intros Hwf Hres. destruct σ as [w t lg]. unfold customs_value in *.
  cbn [world this log] in *.
  destruct (setCurrentEditingProfile_run n w t lg i Hres) as (l & El & Hn & E).
  cbv zeta in *. rewrite E. clear E. cbn [fst snd].
  exists (fresh (dom (profile_objs w))), (profile_at w l). cbn [world this log].
  split; [done|]. split; [by rewrite array_value_lookup, El|].
  split; [done|]. split; [apply is_fresh|]. split; [done|].
  pose proof (λ p' lg', draft_frame w t lg lg' i l p' Hwf El) as Hframe.
  cbv zeta in Hframe.
  destruct (Hframe (profile_at w l)
              (lg ++ [editingProfileSubject_next (Some (fresh (dom (profile_objs w))));
                      editingProfile_next (Some (fresh (dom (profile_objs w))))]))
    as (Hobs & _ & Hdraft & _).
  split; [exact Hdraft|]. split; [done|]. split; [exact Hobs|].
  intros p'. unfold mutate_profile. run. rewrite insert_insert_eq.
  destruct (Hframe p'
              (lg ++ [editingProfileSubject_next (Some (fresh (dom (profile_objs w))));
                      editingProfile_next (Some (fresh (dom (profile_objs w))))]))
    as (Hobs' & _ & Hdraft' & Hchanges).
  split; [exact Hobs'|]. split; [exact Hdraft'|]. exact Hchanges.
Qed.

(** X8.  Begin, edit, commit.  With the profile at position [i] under
    edit and the draft holding [p'], [writeCurrentEditingProfile()] does
    nothing and returns [false] when [p'] is the stored value; otherwise
    it stages the custom collection with [p'] in place of the profile at
    position [i], all other positions as they are, calls the helper
    once, refreshes exactly when the helper reports no error, and keeps
    the edit session as it is either way. *)
Theorem begin_edit_commit (n : string) (i : nat) (v p' : Profile) (d : loc)
    (σ : State) :
  well_formed σ = true →
  resolves n (customs_value σ) i →
  customs_value σ !! i = Some (Some v) →
  let begun := (setCurrentEditingProfile (Some n) σ).2 in
  currentProfileEdit (this begun) = Some d →
  let σ' := mutate_profile d p' begun in
  let cmd := ("pkexec " +:+ tccdExec env +:+ " --new_profiles "
              +:+ "/tmp/tmptccprofiles")%string in
  (p' = v → writeCurrentEditingProfile env σ' = (false, σ'))
  ∧ (p' ≠ v →
     let staged := <[i := Some p']> (customs_value σ) in
     ∃ w1,
       files w1 !! "/tmp/tmptccprofiles"%string = Some (ProfilesData staged)
       ∧ let answer := ipcRenderer_sendSync env "exec-cmd-sync" cmd w1 in
         let success := bool_decide (answer.1 = None) in
         let r := writeCurrentEditingProfile env σ' in
         r.1 = success
         ∧ log r.2
           = log σ' ++ [config_writeProfiles_call staged "/tmp/tmptccprofiles";
                        ipcRenderer_sendSync_call "exec-cmd-sync" cmd]
                    ++ (if success then [settingsSubject_next (settings (this r.2))]
                        else [])
         ∧ settled success answer.2 σ' r.2).
Proof.
  intros Hwf Hres Hv. destruct σ as [w t lg]. unfold customs_value in *.
  cbn [world this log] in *.
  destruct (setCurrentEditingProfile_run n w t lg i Hres) as (l & El & Hn & E).
  cbv zeta in *. rewrite E. clear E. cbn [fst snd this currentProfileEdit].
  intros [= <-]. unfold mutate_profile. run. rewrite insert_insert_eq.
  rewrite array_value_lookup, El in Hv. injection Hv as <-.
  destruct (draft_frame w t lg
              (lg ++ [editingProfileSubject_next (Some (fresh (dom (profile_objs w))));
                      editingProfile_next (Some (fresh (dom (profile_objs w))))])
              i l p' Hwf El)
    as ((_ & _ & Hcust & _) & Hlive & Hdraft & Hchanges).
  cbv zeta in *.
  match type of Hchanges with editProfileChanges ?s = _ => set (σ' := s) in * end.
  split.
  - intros Heq. unfold writeCurrentEditingProfile, bind.
    rewrite Hchanges, bool_decide_eq_false_2; [done|]. intros H. by apply H.
  - intros Hne.
    assert (Hyes : (editProfileChanges σ').1 = true)
      by (rewrite Hchanges; by apply bool_decide_eq_true_2).
    destruct (writeCurrentEditingProfile_run σ' Hyes Hlive)
      as (w1 & Hfile & _ & Hrun).
    exists w1. cbv zeta in Hrun.
    rewrite Hdraft, Hcust in Hfile, Hrun.
    assert (Hlen : (i < length (array_value w (array_objs w !!! customProfiles t)))%nat).
    { unfold array_value. rewrite length_fmap. by eapply lookup_lt_Some. }
    unfold customs_value in Hfile, Hrun. cbn [world this σ' currentProfileEditIndex
      customProfiles array_objs] in Hfile, Hrun. unfold array_at in Hfile, Hrun.
    rewrite (js_assign_in_bounds _ i _ Hlen) in Hfile, Hrun.
    split; [exact Hfile|]. exact Hrun.
Qed.

(** X9.  When [setCurrentEditingProfile(n)] finds no custom profile
    named [n] while a draft exists, the draft stays and the captured
    position becomes [-1].  From then on [editProfileChanges()] is
    [true], and [writeCurrentEditingProfile()] stages the custom
    collection as it is and calls the helper all the same. *)
Theorem setCurrentEditingProfile_failure_leaves_changes (n : string) (d : loc)
    (σ : State) :
  currentProfileEdit (this σ) = Some d →
  d ∈ dom (profile_objs (world σ)) →
  ¬ named n (customs_value σ) →
  let σ' := (setCurrentEditingProfile (Some n) σ).2 in
  let cmd := ("pkexec " +:+ tccdExec env +:+ " --new_profiles "
              +:+ "/tmp/tmptccprofiles")%string in
  currentProfileEdit (this σ') = Some d
  ∧ currentProfileEditIndex (this σ') = Some (-1)
  ∧ log σ' = log σ
  ∧ editProfileChanges σ' = (true, σ')
  ∧ ∃ w1,
      files w1 !! "/tmp/tmptccprofiles"%string
      = Some (ProfilesData (customs_value σ))
      ∧ let answer := ipcRenderer_sendSync env "exec-cmd-sync" cmd w1 in
        let success := bool_decide (answer.1 = None) in
        let r := writeCurrentEditingProfile env σ' in
        r.1 = success
        ∧ log r.2
          = log σ ++ [config_writeProfiles_call (customs_value σ) "/tmp/tmptccprofiles";
                      ipcRenderer_sendSync_call "exec-cmd-sync" cmd]
                  ++ (if success then [settingsSubject_next (settings (this r.2))]
                      else [])
        ∧ settled success answer.2 σ' r.2.
Proof.
  intros Hd Hlive Hno. destruct σ as [w t lg]. unfold customs_value in *.
  cbn [world this log] in *. cbv zeta.
  assert (E : setCurrentEditingProfile (Some n) (mkState w t lg)
              = (false, mkState w (mkConfigService (defaultProfiles t) (customProfiles t)
                                     (settings t) (Some d) (Some (-1))) lg)).
  { unfold setCurrentEditingProfile. run.
    change (λ e : option loc, name_is w n e) with (name_is w n).
    assert (Array_findIndex (name_is w n) (array_objs w !!! customProfiles t) = -1)
      as -> by (by apply findIndex_not_named).
    rewrite bool_decide_eq_true_2 by done. by rewrite Hd. }
  rewrite E. clear E. cbn [snd].
  set (σ' := mkState w (mkConfigService (defaultProfiles t) (customProfiles t)
                          (settings t) (Some d) (Some (-1))) lg).
  assert (Hchanges : editProfileChanges σ' = (true, σ')).
  { unfold editProfileChanges, σ'. run. unfold js_index.
    rewrite (bool_decide_eq_false_2 (0 ≤ -1)) by lia.
    rewrite (bool_decide_eq_false_2 (JSON_stringify _ = JSON_stringify None));
      [done|].
    by rewrite JSON_stringify_inj. }
  split; [done|]. split; [done|]. split; [done|]. split; [exact Hchanges|].
  assert (Hyes : (editProfileChanges σ').1 = true) by by rewrite Hchanges.
  assert (Hlive' : live_slot (world σ') (currentProfileEdit (this σ')) = true)
    by (by apply bool_decide_eq_true_2).
  destruct (writeCurrentEditingProfile_run σ' Hyes Hlive')
    as (w1 & Hfile & _ & Hrun).
  exists w1. cbv zeta in Hrun.
  unfold customs_value, σ' in Hfile, Hrun.
  cbn [world this currentProfileEditIndex customProfiles log] in Hfile, Hrun.
  unfold js_assign in Hfile, Hrun.
  rewrite (bool_decide_eq_false_2 (0 ≤ -1)) in Hfile, Hrun by lia.
  split; [exact Hfile|]. exact Hrun.
Qed.

(** X10.  [setCurrentEditingProfile(undefined)] ends the edit session:
    it returns [false], drops the draft, tells both subjects so, and
    touches no object; after it [editProfileChanges()] is [false] and
    [writeCurrentEditingProfile()] does nothing. *)
Theorem setCurrentEditingProfile_undefined_ends_session (σ : State) :
  let r := setCurrentEditingProfile None σ in
  r.1 = false
  ∧ currentProfileEdit (this r.2) = None
  ∧ currentProfileEditIndex (this r.2) = Some (-1)
  ∧ world r.2 = world σ
  ∧ log r.2 = log σ ++ [editingProfileSubject_next None; editingProfile_next None]
  ∧ editProfileChanges r.2 = (false, r.2)
  ∧ writeCurrentEditingProfile env r.2 = (false, r.2).
Proof.
  destruct σ as [w t lg]. cbv zeta.
  assert (E : setCurrentEditingProfile None (mkState w t lg)
              = (false, mkState w (mkConfigService (defaultProfiles t) (customProfiles t)
                                     (settings t) None (Some (-1)))
                          (lg ++ [editingProfileSubject_next None;
                                  editingProfile_next None]))).
  { unfold setCurrentEditingProfile. run.
    assert (Array_findIndex (λ _ : option loc, false)
              (array_objs w !!! customProfiles t) = -1) as ->.
    { destruct (findIndex_range (λ _ : option loc, false)
                  (array_objs w !!! customProfiles t)) as [E|(i & E & Hi)]; [done|].
      exfalso. unfold Array_findIndex in E.
      destruct (findIndex_from_spec (λ _ : option loc, false)
                  (array_objs w !!! customProfiles t) 0)
        as [[E' _]|(i' & _ & (e & _ & Pe) & _)]; [lia|lia|done]. }
    rewrite bool_decide_eq_true_2 by done. by rewrite <- app_assoc. }
  rewrite E. clear E. cbn [fst snd world this log currentProfileEdit
    currentProfileEditIndex].
  do 5 (split; [reflexivity|]).
  assert (Hno : ∀ σ', currentProfileEdit (this σ') = None →
                      editProfileChanges σ' = (false, σ')).
  { intros σ' H. unfold editProfileChanges. run. by rewrite H. }
  split; [by apply Hno|].
  unfold writeCurrentEditingProfile, bind. by rewrite Hno.
Qed.

(** X11.  The custom collection the D-Bus client delivers replaces the
    one the service holds, and an open edit session is then compared
    with the delivered collection, by position: after a profile was put
    under edit at position [i], [editProfileChanges()] is [false]
    exactly when the delivered collection has a profile of the same
    value at position [i]. *)
Theorem subscription_moves_the_comparison (n : string) (i : nat) (v : Profile)
    (next : loc) (σ : State) :
  resolves n (customs_value σ) i →
  customs_value σ !! i = Some (Some v) →
  forallb (live_slot (world σ)) (array_at (world σ) next) = true →
  let begun := (setCurrentEditingProfile (Some n) σ).2 in
  let σ' := (customProfiles_subscriber next begun).2 in
  customProfiles (this σ') = next
  ∧ currentProfileEdit (this σ') = currentProfileEdit (this begun)
  ∧ currentProfileEditIndex (this σ') = Some (Z.of_nat i)
  ∧ editProfileChanges σ'
    = (bool_decide (mjoin (array_value (world σ) (array_at (world σ) next) !! i)
                    ≠ Some v), σ').
Proof.
  intros Hres Hv Hnext. destruct σ as [w t lg]. unfold customs_value in *.
  cbn [world this log] in *.
  destruct (setCurrentEditingProfile_run n w t lg i Hres) as (l & El & Hn & E).
  cbv zeta in *. rewrite E. clear E. cbn [fst snd].
  rewrite array_value_lookup in Hv. rewrite El in Hv. injection Hv as <-.
  unfold customProfiles_subscriber. run.
  repeat (split; [reflexivity|]).
  unfold editProfileChanges. run. f_equal.
  rewrite lookup_total_insert_eq.
  unfold js_index. rewrite (bool_decide_eq_true_2 (0 ≤ Z.of_nat i)) by lia.
  rewrite Nat2Z.id. rewrite array_value_lookup. unfold array_at in *.
  set (c := fresh (dom (profile_objs w))).
  assert (Hc : c ∉ dom (profile_objs w)) by apply is_fresh.
  destruct ((array_objs w !!! next) !! i) as [[k|]|] eqn:Ek;
    cbn [mjoin option_join fmap option_fmap option_map slot_value].
  - assert (Hk : k ∈ dom (profile_objs w)).
    { apply (live_slots_elem w (array_objs w !!! next)); [done|].
      apply list_elem_of_lookup. by exists i. }
    rewrite lookup_total_insert_ne by (intros E; by rewrite E in Hc).
    rewrite <- bool_decide_not. apply bool_decide_ext.
    rewrite JSON_stringify_inj. unfold profile_at. split; congruence.
  - rewrite <- bool_decide_not. apply bool_decide_ext.
    rewrite JSON_stringify_inj. split; congruence.
  - rewrite <- bool_decide_not. apply bool_decide_ext.
    rewrite JSON_stringify_inj. split; congruence.
Qed.

(** ** Names stay unique *)

Lemma unique_names_snoc (vs : list (option Profile)) (q : Profile) :
  unique_names vs → ¬ named (name q) vs → unique_names (vs ++ [Some q]).
Proof.
  intros Hu Hno j k p1 p2 Hj Hk Hname.
  destruct (decide (j < length vs)%nat) as [Hjl|Hjl],
           (decide (k < length vs)%nat) as [Hkl|Hkl].
  - rewrite lookup_app_l in Hj, Hk by done. by eapply Hu.
  - rewrite lookup_app_l in Hj by done. rewrite lookup_app_r in Hk by lia.
    destruct (k - length vs)%nat as [|m]; [|by destruct m].
    injection Hk as <-. destruct Hno. by exists j, p1.
  - rewrite lookup_app_l in Hk by done. rewrite lookup_app_r in Hj by lia.
    destruct (j - length vs)%nat as [|m]; [|by destruct m].
    injection Hj as <-. destruct Hno. by exists k, p2.
  - rewrite lookup_app_r in Hj, Hk by lia.
    destruct (j - length vs)%nat as [|m] eqn:Ej; [|by destruct m].
    destruct (k - length vs)%nat as [|m] eqn:Ek; [|by destruct m]. lia.
Qed.

Lemma unique_names_insert (vs : list (option Profile)) (k : nat) (q : Profile) :
  unique_names vs →
  (∀ j p, vs !! j = Some (Some p) → name p = name q → j = k) →
  unique_names (<[k := Some q]> vs).
Proof.
  intros Hu Hk j1 j2 p1 p2 H1 H2 Hn.
  apply list_lookup_insert_Some in H1 as [(<- & E1 & _)|(Hne1 & H1)];
    apply list_lookup_insert_Some in H2 as [(E & E2 & _)|(Hne2 & H2)].
  - done.
  - injection E1 as <-. symmetry. by eapply Hk.
  - injection E2 as <-. subst k. by eapply Hk.
  - by eapply Hu.
Qed.

Lemma named_app (n : string) (vs vs' : list (option Profile)) :
  named n (vs ++ vs') ↔ named n vs ∨ named n vs'.
Proof.
  split.
  - intros (i & p & Hi & Hn). apply lookup_app_Some in Hi as [Hi|[_ Hi]].
    + left. by exists i, p.
    + right. by exists (i - length vs)%nat, p.
  - intros [(i & p & Hi & Hn)|(i & p & Hi & Hn)].
    + exists i, p. split; [|done]. by apply lookup_app_l_Some.
    + exists (length vs + i)%nat, p. split; [|done].
      rewrite lookup_app_r by lia. by replace (length vs + i - length vs)%nat with i by lia.
Qed.

(** X12.  Whatever the arguments, the custom collection [writeProfile]
    stages has as many profiles as the one the service holds, and when
    no two profiles, built-in or custom, share a name, none do after the
    staged collection has taken the custom one's place. *)
Theorem writeProfile_keeps_names_unique (currentProfileName : string) (profile : loc)
    (states : option (list string)) (σ : State) :
  profile ∈ dom (profile_objs (world σ)) →
  let r := writeProfile env currentProfileName profile states σ in
  ∃ staged rest,
    log r.2 = log σ ++ config_writeProfiles_call staged "/tmp/tmptccprofiles" :: rest
    ∧ length staged = length (customs_value σ)
    ∧ (unique_names (defaults_value σ ++ customs_value σ) →
       unique_names (defaults_value σ ++ staged)).
Proof.
  intros Hlive. cbv zeta.
  pose proof (writeProfile_run env currentProfileName profile states σ Hlive) as Hrun.
  cbv zeta in Hrun. destruct Hrun as (w1 & _ & _ & _ & Hlog & _).
  eexists _, _. split; [exact Hlog|]. clear Hlog.
  match goal with |- context [willOverwrite ?a ?b ?c] =>
    destruct (willOverwrite a b c) eqn:Hwill end; [|done].
  apply willOverwrite_spec in Hwill as (i & Ei & Hres & Hnodef & Hfirst).
  rewrite Ei. fold (customs_value σ) in Hres, Hfirst. fold (defaults_value σ) in Hnodef.
  rewrite js_assign_in_bounds by (by eapply resolves_lt_length).
  split; [by rewrite length_insert|]. intros Hu.
  rewrite <- insert_app_r. apply unique_names_insert; [done|].
  intros j p Hj Hname. cbn [name] in Hname.
  apply lookup_app_Some in Hj as [Hj|[Hlen Hj]].
  - destruct Hnodef. by exists j, p.
  - assert (j - length (defaults_value σ) = i)%nat; [|lia].
    apply Hfirst. split; [by exists p|].
    intros j' p' Hlt Hj' Hname'.
    assert (length (defaults_value σ) + j' = j)%nat; [|lia].
    apply (Hu _ _ p' p).
    + rewrite lookup_app_r by lia.
      by replace (length (defaults_value σ) + j' - length (defaults_value σ))%nat
        with j' by lia.
    + by rewrite lookup_app_r by lia.
    + congruence.
Qed.

(** ** With a helper that installs what was staged *)

Lemma settled_customs (w2 : World) (σ σ' : State) (ps : list (option Profile)) :
  settled true w2 σ σ' → delivers w2 ps → customs_value σ' = ps.
Proof.
  unfold settled, delivers, customs_value, array_at.
  intros (Hc & _ & _ & _ & _ & Hp & Ha) <-. rewrite Hc, Ha.
  apply array_value_ext. intros l _. unfold profile_at. by rewrite Hp.
Qed.

(** A copy that passes both guards, step by step. *)
Lemma copyProfile_run (profileName newProfileName : string) (p : Profile)
    (σ : State) :
  well_formed σ = true →
  first_named profileName (defaults_value σ ++ customs_value σ) = Some p →
  ¬ named newProfileName (defaults_value σ ++ customs_value σ) →
  let staged := customs_value σ ++ [Some (mkProfile newProfileName (members p))] in
  let cmd := ("pkexec " +:+ tccdExec env +:+ " --new_profiles "
              +:+ "/tmp/tmptccprofiles")%string in
  ∃ w1,
    files w1 !! "/tmp/tmptccprofiles"%string = Some (ProfilesData staged)
    ∧ let answer := utils_execFile env cmd w1 in
      let r := copyProfile env profileName newProfileName σ in
      r.1 = answer.1
      ∧ log r.2
        = log σ ++ [config_writeProfiles_call staged "/tmp/tmptccprofiles";
                    utils_execFile_call cmd]
                ++ (if answer.1 then [settingsSubject_next (settings (this r.2))]
                    else [])
      ∧ settled answer.1 answer.2 σ r.2.
Proof.
  intros Hwf Hp Hnew. cbv zeta.
  destruct σ as [w t lg]. unfold well_formed in Hwf. cbn [world this] in Hwf.
  apply andb_prop in Hwf as [Hwf HliveD]. apply andb_prop in Hwf as [Hwf HliveC].
  apply andb_prop in Hwf as [HC HD].
  apply bool_decide_eq_true in HC, HD.
  unfold defaults_value, customs_value, settled, settings_value in *.
  cbn [world this log] in *.
  rewrite <- array_value_app in Hp, Hnew.
  set (all := array_at w (defaultProfiles t) ++ array_at w (customProfiles t)) in *.
  assert (Hall : ∀ l, Some l ∈ all → l ∈ dom (profile_objs w)).
  { intros l [Hl|Hl]%elem_of_app.
    - by apply (live_slots_elem w (array_at w (defaultProfiles t))).
    - by apply (live_slots_elem w (array_at w (customProfiles t))). }
  unfold copyProfile. run. rewrite getProfileByName_run. fold all. cbv zeta.
  pose proof (Array_find_value w profileName all) as Hfirst.
  rewrite Hp in Hfirst.
  destruct (Array_find (name_is w profileName) all) as [l|] eqn:Hfind;
    simpl in Hfirst; [|done].
  injection Hfirst as Hfirst.
  assert (Hl : l ∈ dom (profile_objs w)) by (by eapply Hall, Array_find_elem).
  set (w1 := with_profile_objs _ _).
  assert (Harr1 : array_at w1 (defaultProfiles t) ++ array_at w1 (customProfiles t) = all).
  { unfold all, array_at, w1. cbn.
    rewrite !lookup_total_insert_live; [done|done|apply is_fresh|done|apply is_fresh]. }
  assert (Hprof1 : ∀ l', l' ∈ dom (profile_objs w) → profile_at w1 l' = profile_at w l').
  { intros l' Hl'. unfold profile_at, w1. cbn.
    apply lookup_total_insert_live; [done|apply is_fresh]. }
  rewrite getProfileByName_run. cbv zeta. rewrite Harr1.
  rewrite (Array_find_ext w w1) by (intros l' Hl'; by apply Hprof1, Hall).
  pose proof (Array_find_value w newProfileName all) as Hsecond.
  apply first_named_None in Hnew. rewrite Hnew in Hsecond.
  destruct (Array_find (name_is w newProfileName) all) as [l2|] eqn:Hfind2;
    simpl in Hsecond; [done|].
  subst w1. clear Harr1 Hprof1. run.
  rewrite pkexecWriteCustomProfilesAsync_run. cbv zeta. run.
  set (c1 := fresh (dom (profile_objs w))).
  set (m1 := <[c1 := profile_objs w !!! l]> (profile_objs w)).
  set (c2 := fresh (dom m1)).
  set (A1 := fresh (dom (array_objs w))).
  set (ar1 := <[A1 := all]> (array_objs w)).
  set (A2 := fresh (dom ar1)).
  set (ar2 := <[A2 := all]> ar1).
  assert (Hc1 : c1 ∉ dom (profile_objs w)) by apply is_fresh.
  assert (Hc2 : c2 ∉ dom m1) by apply is_fresh.
  assert (Hm1 : dom m1 = {[c1]} ∪ dom (profile_objs w)) by apply dom_insert_L.
  assert (HA1 : A1 ∉ dom (array_objs w)) by apply is_fresh.
  assert (HA2 : A2 ∉ dom ar1) by apply is_fresh.
  assert (Har1 : dom ar1 = {[A1]} ∪ dom (array_objs w)) by apply dom_insert_L.
  assert (HC2 : ar2 !!! customProfiles t = array_objs w !!! customProfiles t).
  { unfold ar2, ar1. rewrite !lookup_total_insert_live; [done|done|done| |done].
    fold ar1. rewrite Har1. set_solver. }
  rewrite !lookup_total_insert_eq, HC2, array_value_app.
  match goal with
  | |- context [array_value (mkWorld ?a ?b ?c ?d ?e ?f)
                  (array_objs w !!! customProfiles t)] =>
      rewrite (array_value_ext w (mkWorld a b c d e f))
  end.
  2:{ intros l' Hl'. unfold profile_at. cbn [profile_objs].
      assert (l' ∈ dom (profile_objs w)) as Hl'w
        by (by apply (live_slots_elem w (array_at w (customProfiles t)))).
      assert (l' ≠ c1) by (intros ->; done).
      assert (l' ≠ c2) by (intros ->; apply Hc2; rewrite Hm1; set_solver).
      unfold m1. by rewrite !lookup_total_insert_ne. }
  rewrite array_value_singleton. unfold profile_at. cbn [profile_objs].
  rewrite lookup_total_insert_eq.
  replace (m1 !!! c1) with (profile_objs w !!! l)
    by (unfold m1; by rewrite lookup_total_insert_eq).
  unfold profile_at in Hfirst. rewrite Hfirst.
  match goal with
  | |- context [utils_execFile env ?c ?w1] =>
      exists w1; destruct (utils_execFile env c w1) as [[] w2]
  end; run;
  (split; [by rewrite lookup_insert_eq|]);
  rewrite ?lookup_total_insert_eq, ?app_nil_r, <- ?app_assoc;
  repeat split; reflexivity.
Qed.

(** X13.  With a helper that installs what was staged,
    [copyProfile(profileName, newProfileName)] for a known source and an
    unused new name returns [true]; afterwards the custom collection is
    the one before with the renamed copy at its end,
    [getCustomProfileByName(newProfileName)] returns the copy, every
    other name resolves among the custom profiles as it did, and names
    that were unique still are. *)
Theorem copyProfile_then_lookup (profileName newProfileName : string) (p : Profile)
    (σ : State) :
  installs env →
  well_formed σ = true →
  first_named profileName (defaults_value σ ++ customs_value σ) = Some p →
  ¬ named newProfileName (defaults_value σ ++ customs_value σ) →
  let copy := mkProfile newProfileName (members p) in
  let r := copyProfile env profileName newProfileName σ in
  r.1 = true
  ∧ customs_value r.2 = customs_value σ ++ [Some copy]
  ∧ getCustomProfileByName_value newProfileName r.2 = Some copy
  ∧ (∀ n, n ≠ newProfileName →
          getCustomProfileByName_value n r.2 = getCustomProfileByName_value n σ)
  ∧ (unique_names (customs_value σ) → unique_names (customs_value r.2)).
Proof.
  intros [Hinst _] Hwf Hp Hnew. cbv zeta.
  destruct (copyProfile_run profileName newProfileName p σ Hwf Hp Hnew)
    as (w1 & Hfile & Hrun).
  cbv zeta in Hrun. destruct Hrun as (Hr & _ & Hset).
  destruct (Hinst ("pkexec " +:+ tccdExec env +:+ " --new_profiles "
                   +:+ "/tmp/tmptccprofiles")%string _ _ Hfile) as (Hok & Hdel & _).
  cbv zeta in Hok, Hdel.
  rewrite Hok in Hr, Hset.
  pose proof (settled_customs _ _ _ _ Hset Hdel) as Hcust.
  assert (Hnew' : ¬ named newProfileName (customs_value σ))
    by (intros H; apply Hnew, named_app; by right).
  split; [done|]. split; [done|].
  rewrite !getCustomProfileByName_value_eq, Hcust.
  split; [|split].
  - rewrite first_named_app.
    apply first_named_None in Hnew'. rewrite Hnew'. simpl.
    by rewrite bool_decide_eq_true_2.
  - intros n Hn. rewrite !getCustomProfileByName_value_eq, Hcust, first_named_app.
    destruct (first_named n (customs_value σ)); [done|]. simpl.
    by rewrite bool_decide_eq_false_2.
  - intros Hu. by apply unique_names_snoc.
Qed.

(** X14.  With a helper that installs what was staged,
    [deleteCustomProfile(n)] for a name of a custom profile returns
    [true]; afterwards the custom collection is the one before without
    the profiles named [n], [getCustomProfileByName(n)] returns
    [undefined], and every other name resolves among the custom profiles
    as it did. *)
Theorem deleteCustomProfile_then_lookup (profileNameToDelete : string) (σ : State) :
  installs env →
  well_formed σ = true →
  named profileNameToDelete (customs_value σ) →
  let r := deleteCustomProfile env profileNameToDelete σ in
  r.1 = true
  ∧ customs_value r.2
    = Array_filter (λ p, negb (bool_decide (name p = profileNameToDelete)))
        (customs_value σ)
  ∧ getCustomProfileByName_value profileNameToDelete r.2 = None
  ∧ (∀ n, n ≠ profileNameToDelete →
          getCustomProfileByName_value n r.2 = getCustomProfileByName_value n σ).
Proof.
  intros [Hinst _] Hwf Hyes. cbv zeta.
  destruct (deleteCustomProfile_run profileNameToDelete σ Hwf Hyes)
    as (w1 & Hfile & Hrun).
  cbv zeta in Hrun. destruct Hrun as (Hr & _ & Hset).
  destruct (Hinst ("pkexec " +:+ tccdExec env +:+ " --new_profiles "
                   +:+ "/tmp/tmptccprofiles")%string _ _ Hfile) as (Hok & Hdel & _).
  cbv zeta in Hok, Hdel.
  rewrite Hok in Hr, Hset.
  pose proof (settled_customs _ _ _ _ Hset Hdel) as Hcust.
  split; [done|]. split; [done|].
  rewrite getCustomProfileByName_value_eq, Hcust. split.
  - apply first_named_None, filter_not_named.
  - intros n Hn. rewrite !getCustomProfileByName_value_eq, Hcust.
    by apply filter_first_named_other.
Qed.

Lemma editProfileChanges_values (σ : State) (d : loc) :
  currentProfileEdit (this σ) = Some d →
  editProfileChanges σ = (bool_decide (draft_value σ ≠ saved_value σ), σ).
Proof.
  intros Hd. unfold editProfileChanges, draft_value, saved_value. run.
  rewrite Hd. run. f_equal.
  rewrite <- bool_decide_not. apply bool_decide_ext.
  by rewrite JSON_stringify_inj.
Qed.

Lemma saved_value_customs (σ : State) :
  saved_value σ = js_index (customs_value σ) (currentProfileEditIndex (this σ)).
Proof.
  unfold saved_value, customs_value, js_index.
  destruct (currentProfileEditIndex (this σ)) as [z|]; [|done].
  case_bool_decide; [|done].
  rewrite array_value_lookup.
  by destruct (array_at (world σ) (customProfiles (this σ)) !! Z.to_nat z) as [[l|]|].
Qed.

(** X15.  With a helper that installs what was staged, a commit of a
    changed draft returns [true]; afterwards the custom collection has
    the draft's value at the captured position and is otherwise what it
    was, the draft is still the one under edit, and
    [editProfileChanges()] is [false] again. *)
Theorem commit_then_no_changes (n : string) (i : nat) (v p' : Profile) (d : loc)
    (σ : State) :
  installs env →
  well_formed σ = true →
  resolves n (customs_value σ) i →
  customs_value σ !! i = Some (Some v) →
  let begun := (setCurrentEditingProfile (Some n) σ).2 in
  currentProfileEdit (this begun) = Some d →
  let σ' := mutate_profile d p' begun in
  p' ≠ v →
  let r := writeCurrentEditingProfile env σ' in
  r.1 = true
  ∧ customs_value r.2 = <[i := Some p']> (customs_value σ)
  ∧ currentProfileEdit (this r.2) = Some d
  ∧ draft_value r.2 = Some p'
  ∧ editProfileChanges r.2 = (false, r.2).
Proof.
  intros [_ Hinst] Hwf Hres Hv. destruct σ as [w t lg]. unfold customs_value in *.
  cbn [world this log] in *.
  destruct (setCurrentEditingProfile_run n w t lg i Hres) as (l & El & Hn & E).
  cbv zeta in *. rewrite E. clear E. cbn [fst snd this currentProfileEdit].
  intros [= <-]. unfold mutate_profile. run. rewrite insert_insert_eq.
  rewrite array_value_lookup, El in Hv. injection Hv as <-.
  destruct (draft_frame w t lg
              (lg ++ [editingProfileSubject_next (Some (fresh (dom (profile_objs w))));
                      editingProfile_next (Some (fresh (dom (profile_objs w))))])
              i l p' Hwf El)
    as ((_ & _ & Hcust & _) & Hlive & Hdraft & Hchanges).
  cbv zeta in *.
  match type of Hchanges with editProfileChanges ?s = _ => set (σ' := s) in * end.
  intros Hne.
  assert (Hyes : (editProfileChanges σ').1 = true)
    by (rewrite Hchanges; by apply bool_decide_eq_true_2).
  destruct (writeCurrentEditingProfile_run σ' Hyes Hlive)
    as (w1 & Hfile & Hsub & Hrun).
  cbv zeta in Hrun.
  destruct (Hinst "exec-cmd-sync"%string
              ("pkexec " +:+ tccdExec env +:+ " --new_profiles "
               +:+ "/tmp/tmptccprofiles")%string _ _ Hfile) as (Hok & Hdel & Hsub').
  cbv zeta in Hok, Hdel, Hsub'. rewrite Hok in Hrun.
  rewrite bool_decide_eq_true_2 in Hrun by done.
  destruct Hrun as (Hr & _ & Hset).
  pose proof (settled_customs _ _ _ _ Hset Hdel) as Hcust'.
  rewrite Hdraft, Hcust in Hcust'.
  assert (Hlen : (i < length (array_value w (array_objs w !!! customProfiles t)))%nat).
  { unfold array_value. rewrite length_fmap. by eapply lookup_lt_Some. }
  unfold customs_value in Hcust' at 2.
  cbn [world this σ' currentProfileEditIndex customProfiles array_objs] in Hcust'.
  unfold array_at in Hcust'. rewrite (js_assign_in_bounds _ i _ Hlen) in Hcust'.
  destruct Hset as (_ & _ & _ & Hedit & Hidx & Hprof & _).
  cbn [this σ' currentProfileEdit currentProfileEditIndex] in Hedit, Hidx.
  assert (Hd' : draft_value (writeCurrentEditingProfile env σ').2 = Some p').
  { unfold draft_value. rewrite Hedit. cbn [slot_value]. f_equal.
    unfold profile_at. rewrite Hprof.
    apply bool_decide_eq_true in Hlive.
    assert (Hlive1 : fresh (dom (profile_objs w)) ∈ dom (profile_objs w1))
      by (by apply (subseteq_dom _ _ Hsub)).
    rewrite (lookup_total_subseteq _ _ _ Hsub' Hlive1).
    rewrite (lookup_total_subseteq _ _ _ Hsub Hlive).
    cbn [world σ' profile_objs]. by rewrite lookup_total_insert_eq. }
  split; [done|]. split; [done|]. split; [done|]. split; [done|].
  rewrite (editProfileChanges_values _ _ Hedit), Hd', saved_value_customs, Hcust', Hidx.
  unfold js_index. rewrite (bool_decide_eq_true_2 (0 ≤ Z.of_nat i)) by lia.
  rewrite Nat2Z.id, list_lookup_insert_eq by done. cbn [mjoin option_join].
  by rewrite bool_decide_eq_false_2 by (intros H; by apply H).
Qed.

(** ** Write a profile *)

(** [writeProfile], step by step, with what the service holds after. *)
Lemma writeProfile_settled (currentProfileName : string) (profile : loc)
    (states : option (list string)) (σ : State) :
  profile ∈ dom (profile_objs (world σ)) →
  let new := profile_at (world σ) profile in
  let customs := array_at (world σ) (customProfiles (this σ)) in
  let defaults := array_at (world σ) (defaultProfiles (this σ)) in
  let profileIndex := Array_findIndex (name_is (world σ) currentProfileName) customs in
  let will :=
    willOverwrite profileIndex
      (Array_findIndex (name_is (world σ) (name new)) defaults)
      (Array_findIndex (name_is (world σ) (name new)) customs) in
  let staged_profiles :=
    if will then js_assign (customs_value σ) (Some profileIndex) (Some new)
    else customs_value σ in
  let staged_settings := remapped states (name new) (settings_value σ) in
  let cmd := ("pkexec " +:+ tccdExec env +:+ " --new_profiles " +:+ "/tmp/tmptccprofiles"
              +:+ " --new_settings " +:+ "/tmp/tmptccsettings")%string in
  ∃ w1,
    files w1 !! "/tmp/tmptccprofiles"%string = Some (ProfilesData staged_profiles)
    ∧ files w1 !! "/tmp/tmptccsettings"%string = Some (SettingsData staged_settings)
    ∧ let answer := utils_execFile env cmd w1 in
      let r := writeProfile env currentProfileName profile states σ in
      r.1 = answer.1
      ∧ log r.2
        = log σ ++ [config_writeProfiles_call staged_profiles "/tmp/tmptccprofiles";
                    config_writeSettings_call staged_settings "/tmp/tmptccsettings";
                    utils_execFile_call cmd]
                ++ (if answer.1 then [settingsSubject_next (settings (this r.2))] else [])
      ∧ settled answer.1 answer.2 σ r.2.
Proof.
  intros Hlive. destruct σ as [w t lg]. cbn [world this log] in *.
  unfold customs_value, settings_value, settled. cbn [world this log].
  cbn zeta. unfold writeProfile. run.
  destruct (copyConfig_profiles_run (customProfiles t) w t lg)
    as (m' & copies & E & Hsub & Hval).
  rewrite E. run. clear E. unfold willOverwrite.
  set (profileIndex := Array_findIndex (name_is w currentProfileName) _).
  set (will := negb _ && _ && _).
  assert (Hnew : m' !!! profile = profile_objs w !!! profile).
  { apply elem_of_dom in Hlive as [p Hp].
    rewrite (lookup_total_correct _ _ _ Hp).
    apply lookup_total_correct. by eapply lookup_weaken. }
  destruct will; run; rewrite ?lookup_total_insert_eq;
  (destruct states as [sts|]; run;
   [ match goal with
     | |- context [assign_states ?l ?s ?p (mkState ?w0 ?t0 ?lg0)] =>
         destruct (assign_states_run l s p w0 t0 lg0) as (st' & E & Hst');
         rewrite E; clear E; run
     end | ]);
  rewrite pkexecWriteConfigAsync_run; cbn zeta; run;
  rewrite ?lookup_total_insert_eq, ?array_value_js_assign;
  rewrite Hval;
  try (rewrite Hst'; clear Hst'; unfold settings_at, profile_at);
  run; rewrite ?lookup_total_insert_eq, ?Hnew;
  match goal with
  | |- context [utils_execFile env ?c ?w1] =>
      exists w1; destruct (utils_execFile env c w1) as [[] w2]
  end; run;
  (split; [by rewrite lookup_insert_ne, lookup_insert_eq|]);
  (split; [by rewrite lookup_insert_eq|]);
  unfold settings_value; run;
  rewrite ?lookup_total_insert_eq, ?app_nil_r, <- ?app_assoc;
  repeat split; reflexivity.
Qed.

Lemma first_named_Some (n : string) (vs : list (option Profile)) (p : Profile) :
  first_named n vs = Some p → ∃ j, vs !! j = Some (Some p) ∧ name p = n.
Proof.
  induction vs as [|[q|] vs IH]; simpl; [done| |].
  - case_bool_decide as Hq.
    + intros [= <-]. by exists 0%nat.
    + intros H. destruct (IH H) as (j & Hj & Hn). by exists (S j).
  - intros H. destruct (IH H) as (j & Hj & Hn). by exists (S j).
Qed.

Lemma first_named_unique (vs : list (option Profile)) (i : nat) (q : Profile) :
  unique_names vs → vs !! i = Some (Some q) → first_named (name q) vs = Some q.
Proof.
  intros Hu Hi.
  destruct (first_named (name q) vs) as [p|] eqn:E.
  - apply first_named_Some in E as (j & Hj & Hn).
    assert (j = i) as -> by (by eapply Hu). congruence.
  - apply first_named_None in E. destruct E. by exists i, q.
Qed.

Lemma first_named_insert_other (n : string) (vs : list (option Profile)) (i : nat)
    (old new : Profile) :
  vs !! i = Some (Some old) → name old ≠ n → name new ≠ n →
  first_named n (<[i := Some new]> vs) = first_named n vs.
Proof.
  revert i. induction vs as [|[q|] vs IH]; intros [|i] Hi Hold Hnew; simpl in *;
    try done.
  - injection Hi as ->. by rewrite !bool_decide_eq_false_2.
  - case_bool_decide; [done|]. by apply IH.
  - by apply IH.
Qed.

(** X16.  With a helper that installs what was staged, and custom
    profiles of unique names: [writeProfile(current, profile, states)]
    where [current] names the custom profile at position [i], no
    built-in profile has [profile]'s name, and no other custom profile
    has it, returns [true]; afterwards [profile]'s value is at position
    [i] of the custom collection and is what [getCustomProfileByName]
    returns for its name, the old name resolves to nothing if the
    profile was renamed, every other name resolves as it did, and the
    names are still unique. *)
Theorem writeProfile_then_lookup (currentProfileName : string) (profile : loc)
    (states : option (list string)) (i : nat) (σ : State) :
  installs env →
  profile ∈ dom (profile_objs (world σ)) →
  unique_names (customs_value σ) →
  resolves currentProfileName (customs_value σ) i →
  let new := profile_at (world σ) profile in
  ¬ named (name new) (defaults_value σ) →
  name new = currentProfileName ∨ ¬ named (name new) (customs_value σ) →
  let r := writeProfile env currentProfileName profile states σ in
  r.1 = true
  ∧ customs_value r.2 = <[i := Some new]> (customs_value σ)
  ∧ getCustomProfileByName_value (name new) r.2 = Some new
  ∧ (name new ≠ currentProfileName →
     getCustomProfileByName_value currentProfileName r.2 = None)
  ∧ (∀ n, n ≠ currentProfileName → n ≠ name new →
          getCustomProfileByName_value n r.2 = getCustomProfileByName_value n σ)
  ∧ unique_names (customs_value r.2).
Proof.
  intros [Hinst _] Hlive Hu Hres new Hnodef Hfree. cbv zeta.
  pose proof Hres as [(old & Hold & Hnold) _].
  assert (Hlen : (i < length (customs_value σ))%nat) by (by eapply lookup_lt_Some).
  assert (Honly : ∀ j p, customs_value σ !! j = Some (Some p) →
                         name p = name new → j = i).
  { intros j p Hj Hn. destruct Hfree as [Hsame|Hno].
    - apply (Hu _ _ p old); [done|done|congruence].
    - destruct Hno. by exists j, p. }
  assert (Hwill : willOverwrite
            (Array_findIndex (name_is (world σ) currentProfileName)
               (array_at (world σ) (customProfiles (this σ))))
            (Array_findIndex (name_is (world σ) (name new))
               (array_at (world σ) (defaultProfiles (this σ))))
            (Array_findIndex (name_is (world σ) (name new))
               (array_at (world σ) (customProfiles (this σ)))) = true).
  { apply willOverwrite_spec. exists i.
    split; [by apply findIndex_resolves|]. split; [done|]. split; [done|].
    intros j [(p & Hp & Hn) _]. by eapply Honly. }
  pose proof (writeProfile_settled currentProfileName profile states σ Hlive) as Hrun.
  cbv zeta in Hrun. fold new in Hrun. rewrite Hwill in Hrun.
  apply findIndex_resolves in Hres.
  rewrite Hres, (js_assign_in_bounds _ i _ Hlen) in Hrun.
  destruct Hrun as (w1 & Hfile & _ & Hr & _ & Hset).
  destruct (Hinst ("pkexec " +:+ tccdExec env +:+ " --new_profiles "
                   +:+ "/tmp/tmptccprofiles" +:+ " --new_settings "
                   +:+ "/tmp/tmptccsettings")%string _ _ Hfile) as (Hok & Hdel & _).
  cbv zeta in Hok, Hdel. rewrite Hok in Hr, Hset.
  pose proof (settled_customs _ _ _ _ Hset Hdel) as Hcust.
  assert (Hu' : unique_names (<[i := Some new]> (customs_value σ)))
    by (by apply unique_names_insert).
  split; [done|]. split; [done|].
  rewrite !getCustomProfileByName_value_eq, Hcust.
  split; [|split; [|split]].
  - apply (first_named_unique _ i); [done|]. by apply list_lookup_insert_eq.
  - intros Hne. apply first_named_None. intros (j & p & Hj & Hn).
    apply list_lookup_insert_Some in Hj as [(_ & E & _)|(Hji & Hj)].
    + injection E as <-. done.
    + apply Hji. symmetry. apply (Hu _ _ p old); [done|done|congruence].
  - intros n Hn1 Hn2. rewrite !getCustomProfileByName_value_eq, Hcust.
    apply (first_named_insert_other n _ i old); [done|congruence|done].
  - done.
Qed.

(** X17.  Whatever the names, [writeProfile(current, profile, states)]
    stages the settings with every state of [states] assigned
    [profile]'s name and every other state, and the rest of the
    settings, as the service holds them; it calls the helper once with
    both files, returns the helper's success and refreshes exactly when
    the helper succeeded. *)
Theorem writeProfile_assigns_states (currentProfileName : string) (profile : loc)
    (states : option (list string)) (σ : State) :
  profile ∈ dom (profile_objs (world σ)) →
  let pname := name (profile_at (world σ) profile) in
  let cmd := ("pkexec " +:+ tccdExec env +:+ " --new_profiles " +:+ "/tmp/tmptccprofiles"
              +:+ " --new_settings " +:+ "/tmp/tmptccsettings")%string in
  ∃ staged_profiles staged_settings w1,
    (∀ k, stateMap staged_settings !! k
          = if bool_decide (k ∈ default [] states) then Some pname
            else stateMap (settings_value σ) !! k)
    ∧ globals staged_settings = globals (settings_value σ)
    ∧ files w1 !! "/tmp/tmptccprofiles"%string = Some (ProfilesData staged_profiles)
    ∧ files w1 !! "/tmp/tmptccsettings"%string = Some (SettingsData staged_settings)
    ∧ let answer := utils_execFile env cmd w1 in
      let r := writeProfile env currentProfileName profile states σ in
      r.1 = answer.1
      ∧ log r.2
        = log σ ++ [config_writeProfiles_call staged_profiles "/tmp/tmptccprofiles";
                    config_writeSettings_call staged_settings "/tmp/tmptccsettings";
                    utils_execFile_call cmd]
                ++ (if answer.1 then [settingsSubject_next (settings (this r.2))] else [])
      ∧ settled answer.1 answer.2 σ r.2.
Proof.
  intros Hlive. cbv zeta.
  pose proof (writeProfile_settled currentProfileName profile states σ Hlive) as Hrun.
  cbv zeta in Hrun. destruct Hrun as (w1 & Hrun).
  eexists _, _, w1.
  split; [intros k; apply remapped_lookup|].
  split; [apply remapped_globals|]. exact Hrun.
Qed.

End Further.

(** ** The texts of the built-in profiles *)

(** X6.  [getDefaultProfileName] and [getDefaultProfileDescription] are
    defined for the same descriptors, the five the constructor enters,
    and return [undefined] for every other. *)
Theorem default_profile_texts_defined (names : DefaultProfileNames)
    (i18n : string → string → string) (descriptor : string) :
  (is_Some (getDefaultProfileName names i18n descriptor)
   ↔ descriptor ∈ [MaxEnergySave names; Quiet names; Office names;
                   HighPerformance names; MaximumPerformance names])
  ∧ (is_Some (getDefaultProfileDescription names i18n descriptor)
     ↔ is_Some (getDefaultProfileName names i18n descriptor)).
Proof.
  unfold getDefaultProfileName, getDefaultProfileDescription.
  assert (is_Some (defaultProfileInfos names i18n !! descriptor)
          ↔ descriptor ∈ [MaxEnergySave names; Quiet names; Office names;
                          HighPerformance names; MaximumPerformance names]) as Hdom.
  { unfold defaultProfileInfos. rewrite !lookup_insert_is_Some, lookup_empty.
    rewrite !elem_of_cons, elem_of_nil.
    split.
    - intros H.
      destruct H as [<-|[_ [<-|[_ [<-|[_ [<-|[_ [<-|[_ [? [=]]]]]]]]]]]]; eauto 10.
    - intros H.
      destruct (decide (MaximumPerformance names = descriptor)); [by left|right].
      split; [done|].
      destruct (decide (HighPerformance names = descriptor)); [by left|right].
      split; [done|].
      destruct (decide (Office names = descriptor)); [by left|right].
      split; [done|].
      destruct (decide (Quiet names = descriptor)); [by left|right].
      split; [done|].
      destruct (decide (MaxEnergySave names = descriptor)); [by left|].
      destruct H as [->|[->|[->|[->|[->|[]]]]]]; done. }
  destruct (defaultProfileInfos names i18n !! descriptor) as [info|] eqn:E.
  - split; [|done]. rewrite <- Hdom. split; by eexists.
  - split; [|split; intros [? [=]]]. rewrite <- Hdom.
    split; intros [? [=]].
Qed.

(** ** The further properties at the sample configuration *)

Lemma Sample_daemon_installs : installs Sample.daemon.
Proof.
  assert (Hinstall : ∀ w ps,
    files w !! "/tmp/tmptccprofiles"%string = Some (ProfilesData ps) →
    delivers (Sample.install w) ps ∧ profile_objs w ⊆ profile_objs (Sample.install w)).
  { intros w ps Hfile. unfold Sample.install, delivers. rewrite Hfile. run.
    destruct (JSON_parse_slots_run ps w Sample.service [])
      as (m' & copies & E & Hsub & Hval).
    rewrite E. clear E. run.
    rewrite lookup_total_insert_eq. split; [apply Hval|exact Hsub]. }
  split.
  - intros cmd w ps Hfile. cbv zeta. cbn [Sample.daemon utils_execFile fst snd].
    split; [done|]. by apply Hinstall.
  - intros channel cmd w ps Hfile. cbv zeta.
    cbn [Sample.daemon ipcRenderer_sendSync fst snd].
    split; [done|]. by apply Hinstall.
Qed.

Lemma Sample_names_unique :
  unique_names (defaults_value Sample.idle ++ customs_value Sample.idle).
Proof.
  change (unique_names [Some Sample.Office; Some Sample.Work; Some Sample.Play]).
  intros j k p q Hj Hk Hn.
  destruct j as [|[|[|j]]], k as [|[|[|k]]]; simpl in Hj, Hk;
    try done; injection Hj as <-; injection Hk as <-; discriminate Hn.
Qed.

Lemma Sample_customs_unique : unique_names (customs_value Sample.idle).
Proof.
  change (unique_names [Some Sample.Work; Some Sample.Play]).
  intros j k p q Hj Hk Hn.
  destruct j as [|[|j]], k as [|[|k]]; simpl in Hj, Hk;
    try done; injection Hj as <-; injection Hk as <-; discriminate Hn.
Qed.

Lemma Sample_Play_stored :
  customs_value Sample.idle !! 1%nat = Some (Some Sample.Play).
Proof. reflexivity. Qed.

Lemma Sample_draft : currentProfileEdit (this Sample.editing) = Some 5%positive.
Proof. reflexivity. Qed.

Lemma Sample_Play_edited_changed : Sample.Play_edited ≠ Sample.Play.
Proof. discriminate. Qed.

Lemma deleteCustomProfile_unknown_name_witness :
  ¬ named "Nope" (customs_value Sample.idle)
  ∧ (deleteCustomProfile Sample.helper_succeeds "Nope" Sample.idle).1 = false
  ∧ log (deleteCustomProfile Sample.helper_succeeds "Nope" Sample.idle).2 = [].
Proof.
  assert (Hdense : dense (array_at (world Sample.idle)
                            (customProfiles (this Sample.idle))) = true)
    by reflexivity.
  destruct (deleteCustomProfile_unknown_name Sample.helper_succeeds "Nope"
              Sample.idle Sample_idle_well_formed Hdense
              Sample_customs_not_named_Nope_idle) as (H1 & H2 & _).
  split; [exact Sample_customs_not_named_Nope_idle|]. split; [exact H1|exact H2].
Defined.

Lemma deleteCustomProfile_known_name_witness :
  named "Play" (customs_value Sample.idle)
  ∧ ∃ rest,
      log (deleteCustomProfile Sample.helper_fails "Play" Sample.idle).2
      = config_writeProfiles_call [Some Sample.Work] "/tmp/tmptccprofiles" :: rest.
Proof.
  split; [exact Sample_customs_named_Play|].
  destruct (deleteCustomProfile_known_name Sample.helper_fails "Play" Sample.idle
              Sample_idle_well_formed Sample_customs_named_Play)
    as (_ & _ & w1 & _ & Hrun).
  destruct Hrun as (_ & Hlog & _).
  eexists. rewrite Hlog. reflexivity.
Defined.

Lemma setCurrentEditingProfile_opens_isolated_draft_witness :
  resolves "Play" (customs_value Sample.idle) 1
  ∧ same_observations Sample.idle Sample.editing
  ∧ same_observations Sample.idle Sample.changed
  ∧ (editProfileChanges Sample.changed).1 = true.
Proof.
  assert (Hres : resolves "Play" (customs_value Sample.idle) 1)
    by (apply Sample_resolves; reflexivity).
  split; [exact Hres|].
  destruct (setCurrentEditingProfile_opens_isolated_draft "Play" 1 Sample.idle
              Sample_idle_well_formed Hres)
    as (d & v & _ & Hv & Hd & _ & _ & _ & _ & Hobs & Hmut).
  assert (d = 5%positive) as -> by (pose proof Sample_draft; unfold Sample.editing in *; congruence).
  assert (v = Sample.Play) as -> by (pose proof Sample_Play_stored; congruence).
  split; [exact Hobs|].
  destruct (Hmut Sample.Play_edited) as (Hobs' & _ & Hchanges).
  split; [exact Hobs'|].
  unfold Sample.changed, Sample.editing. rewrite Hchanges.
  apply bool_decide_eq_true_2, Sample_Play_edited_changed.
Defined.

Lemma begin_edit_commit_witness :
  resolves "Play" (customs_value Sample.idle) 1
  ∧ ∃ rest,
      log (writeCurrentEditingProfile Sample.helper_fails Sample.changed).2
      = log Sample.changed
        ++ config_writeProfiles_call [Some Sample.Work; Some Sample.Play_edited]
             "/tmp/tmptccprofiles" :: rest.
Proof.
  assert (Hres : resolves "Play" (customs_value Sample.idle) 1)
    by (apply Sample_resolves; reflexivity).
  split; [exact Hres|].
  destruct (begin_edit_commit Sample.helper_fails "Play" 1 Sample.Play
              Sample.Play_edited 5%positive Sample.idle
              Sample_idle_well_formed Hres Sample_Play_stored Sample_draft)
    as (_ & Hcommit).
  destruct (Hcommit Sample_Play_edited_changed) as (w1 & _ & _ & Hlog & _).
  eexists. unfold Sample.changed, Sample.editing. rewrite Hlog. reflexivity.
Defined.

Lemma setCurrentEditingProfile_failure_leaves_changes_witness :
  ¬ named "Nope" (customs_value Sample.editing)
  ∧ (editProfileChanges
       (setCurrentEditingProfile (Some "Nope"%string) Sample.editing).2).1 = true.
Proof.
  split; [exact Sample_customs_not_named_Nope|].
  assert (Hlive : 5%positive ∈ dom (profile_objs (world Sample.editing)))
    by compute_done.
  destruct (setCurrentEditingProfile_failure_leaves_changes Sample.helper_fails
              "Nope" 5%positive Sample.editing Sample_draft Hlive
              Sample_customs_not_named_Nope) as (_ & _ & _ & Hchanges & _).
  by rewrite Hchanges.
Defined.

Lemma subscription_moves_the_comparison_witness :
  resolves "Play" (customs_value Sample.idle) 1
  ∧ (editProfileChanges Sample.stale).1 = true.
Proof.
  assert (Hres : resolves "Play" (customs_value Sample.idle) 1)
    by (apply Sample_resolves; reflexivity).
  split; [exact Hres|].
  assert (Hnext : forallb (live_slot (world Sample.idle))
                    (array_at (world Sample.idle) 3%positive) = true)
    by reflexivity.
  destruct (subscription_moves_the_comparison "Play" 1 Sample.Play 3%positive
              Sample.idle Hres Sample_Play_stored Hnext) as (_ & _ & _ & Hchanges).
  unfold Sample.stale, Sample.editing. rewrite Hchanges.
  apply bool_decide_eq_true_2. discriminate.
Defined.

Lemma writeProfile_keeps_names_unique_witness :
  4%positive ∈ dom (profile_objs (world Sample.idle))
  ∧ ∃ staged rest,
      log (writeProfile Sample.helper_succeeds "Work" 4%positive None Sample.idle).2
      = config_writeProfiles_call staged "/tmp/tmptccprofiles" :: rest
      ∧ length staged = 2%nat
      ∧ unique_names (defaults_value Sample.idle ++ staged).
Proof.
  split; [exact Sample_Work_edited_live|].
  destruct (writeProfile_keeps_names_unique Sample.helper_succeeds "Work" 4%positive
              None Sample.idle Sample_Work_edited_live)
    as (staged & rest & Hlog & Hlen & Hu).
  exists staged, rest. split; [exact Hlog|]. split; [exact Hlen|].
  exact (Hu Sample_names_unique).
Defined.

Lemma copyProfile_then_lookup_witness :
  installs Sample.daemon
  ∧ (copyProfile Sample.daemon "Work" "Copy" Sample.idle).1 = true
  ∧ getCustomProfileByName_value "Copy"
      (copyProfile Sample.daemon "Work" "Copy" Sample.idle).2
    = Some (mkProfile "Copy" (members Sample.Work)).
Proof.
  split; [exact Sample_daemon_installs|].
  assert (Hsrc : first_named "Work"
                   (defaults_value Sample.idle ++ customs_value Sample.idle)
                 = Some Sample.Work) by reflexivity.
  assert (Hnew : ¬ named "Copy"
                     (defaults_value Sample.idle ++ customs_value Sample.idle))
    by (apply first_named_None; reflexivity).
  destruct (copyProfile_then_lookup Sample.daemon "Work" "Copy" Sample.Work
              Sample.idle Sample_daemon_installs Sample_idle_well_formed Hsrc Hnew)
    as (Hr & _ & Hfound & _).
  split; [exact Hr|exact Hfound].
Defined.

Lemma deleteCustomProfile_then_lookup_witness :
  installs Sample.daemon
  ∧ (deleteCustomProfile Sample.daemon "Play" Sample.idle).1 = true
  ∧ getCustomProfileByName_value "Play"
      (deleteCustomProfile Sample.daemon "Play" Sample.idle).2 = None.
Proof.
  split; [exact Sample_daemon_installs|].
  destruct (deleteCustomProfile_then_lookup Sample.daemon "Play" Sample.idle
              Sample_daemon_installs Sample_idle_well_formed
              Sample_customs_named_Play) as (Hr & _ & Hgone & _).
  split; [exact Hr|exact Hgone].
Defined.

Lemma commit_then_no_changes_witness :
  installs Sample.daemon
  ∧ (writeCurrentEditingProfile Sample.daemon Sample.changed).1 = true
  ∧ (editProfileChanges
       (writeCurrentEditingProfile Sample.daemon Sample.changed).2).1 = false.
Proof.
  split; [exact Sample_daemon_installs|].
  assert (Hres : resolves "Play" (customs_value Sample.idle) 1)
    by (apply Sample_resolves; reflexivity).
  destruct (commit_then_no_changes Sample.daemon "Play" 1 Sample.Play
              Sample.Play_edited 5%positive Sample.idle Sample_daemon_installs
              Sample_idle_well_formed Hres Sample_Play_stored Sample_draft
              Sample_Play_edited_changed) as (Hr & _ & _ & _ & Hclean).
  split; [exact Hr|].
  unfold Sample.changed, Sample.editing. by rewrite Hclean.
Defined.

Lemma writeProfile_then_lookup_witness :
  installs Sample.daemon
  ∧ resolves "Work" (customs_value Sample.idle) 0
  ∧ (writeProfile Sample.daemon "Work" 4%positive None Sample.idle).1 = true
  ∧ getCustomProfileByName_value "Work"
      (writeProfile Sample.daemon "Work" 4%positive None Sample.idle).2
    = Some Sample.Work_edited.
Proof.
  split; [exact Sample_daemon_installs|].
  assert (Hres : resolves "Work" (customs_value Sample.idle) 0)
    by (apply Sample_resolves; reflexivity).
  assert (Hnodef : ¬ named (name (profile_at (world Sample.idle) 4%positive))
                       (defaults_value Sample.idle))
    by (apply Sample_defaults_not_named; reflexivity).
  split; [exact Hres|].
  destruct (writeProfile_then_lookup Sample.daemon "Work" 4%positive None 0
              Sample.idle Sample_daemon_installs Sample_Work_edited_live
              Sample_customs_unique Hres Hnodef (or_introl eq_refl))
    as (Hr & _ & Hfound & _).
  split; [exact Hr|exact Hfound].
Defined.

Lemma writeProfile_assigns_states_witness :
  4%positive ∈ dom (profile_objs (world Sample.idle))
  ∧ ∃ staged_profiles staged_settings rest,
      stateMap staged_settings !! "AC"%string = Some "Work"%string
      ∧ log (writeProfile Sample.helper_fails "Nope" 4%positive (Some ["AC"%string])
               Sample.idle).2
        = config_writeProfiles_call staged_profiles "/tmp/tmptccprofiles"
          :: config_writeSettings_call staged_settings "/tmp/tmptccsettings" :: rest.
Proof.
  split; [exact Sample_Work_edited_live|].
  destruct (writeProfile_assigns_states Sample.helper_fails "Nope" 4%positive
              (Some ["AC"%string]) Sample.idle Sample_Work_edited_live)
    as (ps & ss & w1 & Hk & _ & _ & _ & _ & Hlog & _).
  exists ps, ss. eexists. split; [by rewrite Hk|]. rewrite Hlog. reflexivity.
Defined.
